(** * SchemaValidator.validate: the schema publication gate of graphql-hive

    A shallow embedding of
    [packages/services/api/src/modules/schema/providers/schema-validator.ts].

    The validator sits between a composition engine (the orchestrator) and a
    diff engine (the inspector).  Both are injected, remote and fallible, so
    the embedding threads an abstract [World] through every call on them,
    lets every call either return or throw, and records each call together
    with its outcome in an event log.  The locals [errors] and [changes] of
    the source are mutable (the array [errors] is extended in place by
    [push]); they live in the state of the monad, which survives a throw
    exactly as a JavaScript heap does.  The calls on the logger and the
    Sentry decorator do not bear on the result and are left out. *)

From Stdlib Require Import String List Bool Arith Lia.
Import ListNotations.

Local Open Scope string_scope.
Local Open Scope list_scope.

(** ** Values shared with the generated GraphQL types *)

(** A thrown JavaScript value, or the reason of a rejected promise.  Anything
    can be thrown; the validator only ever reads the property [message] of
    what it catches, so a value is told by what that reading does: [mk m] is
    an [Error] (or any object) whose [message] is [m]; [messageless] is a
    value other than null and undefined that has no such property; on [null]
    and [undefined] reading a property throws. *)
Module Error.
Inductive t : Type :=
| mk (message : string)
| messageless
| null
| undefined.
End Error.

(** The outcome of an evaluation that may throw. *)
Inductive Result (A : Type) : Type :=
| Returned (a : A)
| Thrown (e : Error.t).
Arguments Returned {A} a.
Arguments Thrown {A} e.

(** [Types.CriticalityLevel]. *)
Inductive CriticalityLevel : Type := Breaking | Dangerous | Safe.

(** [Types.SchemaChange]; an absent or null [path] is [None]. *)
Module SchemaChange.
Record t : Type := mk {
  criticality : CriticalityLevel;
  message : string;
  path : option (list string)
}.
End SchemaChange.

(** [Types.SchemaError]; an absent or null [path] is [None]. *)
Module SchemaError.
Record t : Type := mk {
  message : string;
  path : option (list string)
}.
End SchemaError.

(** [ValidationResult], lines 11-16. *)
Record ValidationResult : Type := {
  valid : bool;
  isComposable : bool;
  errors : list SchemaError.t;
  changes : list SchemaChange.t
}.

(** [change.criticality === 'Breaking'] *)
Definition isBreaking (change : SchemaChange.t) : bool :=
  match SchemaChange.criticality change with
  | Breaking => true
  | _ => false
  end.

(** The error pushed for a breaking change, lines 110-113. *)
Definition breakingChangeError (change : SchemaChange.t) : SchemaError.t :=
  {| SchemaError.message :=
       String.append "Breaking Change: " (SchemaChange.message change);
     SchemaError.path := SchemaChange.path change |}.

(** Null and undefined. *)
Definition nullish (error : Error.t) : bool :=
  match error with
  | Error.null | Error.undefined => true
  | _ => false
  end.

(** [(error as Error).message]: the cast is erased, so the property is read
    off whatever was thrown.  On null and undefined the read throws the
    [TypeError] of the engine (the wording is the one of Node); a value without
    the property gives undefined, here [None]. *)
Definition readMessage (error : Error.t) : Result (option string) :=
  match error with
  | Error.mk m => Returned (Some m)
  | Error.messageless => Returned None
  | Error.null =>
      Thrown (Error.mk "Cannot read properties of null (reading 'message')")
  | Error.undefined =>
      Thrown
        (Error.mk "Cannot read properties of undefined (reading 'message')")
  end.

(** A string or undefined inside a template literal. *)
Definition interpolate (v : option string) : string :=
  match v with
  | Some text => text
  | None => "undefined"
  end.

(** The object of lines 120-122 for a message already read: no [path]. *)
Definition comparisonError (v : option string) : SchemaError.t :=
  {| SchemaError.message :=
       String.append "Failed to compare schemas: " (interpolate v);
     SchemaError.path := None |}.

(** The argument of [errors.push] in the [catch] clause, lines 120-122:
    evaluating it reads the message of the caught value, which may throw. *)
Definition compareFailure (error : Error.t) : Result SchemaError.t :=
  match readMessage error with
  | Returned v => Returned (comparisonError v)
  | Thrown raised => Thrown raised
  end.

(** The object returned by the identity short-circuit, lines 70-75. *)
Definition identicalResult : ValidationResult :=
  {| valid := true; isComposable := true; errors := []; changes := [] |}.

(** JavaScript truthiness of a [string | null]: null and the empty string
    are falsy. *)
Definition truthy (s : option string) : bool :=
  match s with
  | Some v => negb (String.eqb v EmptyString)
  | None => false
  end.

(** [s || ''] *)
Definition orEmpty (s : option string) : string :=
  if truthy s then match s with Some v => v | None => EmptyString end else EmptyString.

(** [Array.prototype.map] with a callback that may throw: the callback gets
    the element and its index, and the first throw aborts the map. *)
Fixpoint mapFrom {A B : Type} (f : A -> nat -> Result B) (index : nat)
    (l : list A) : Result (list B) :=
  match l with
  | [] => Returned []
  | x :: rest =>
      match f x index with
      | Thrown e => Thrown e
      | Returned y =>
          match mapFrom f (S index) rest with
          | Thrown e => Thrown e
          | Returned ys => Returned (y :: ys)
          end
      end
  end.

Definition arrayMap {A B : Type} (f : A -> nat -> Result B) (l : list A)
    : Result (list B) :=
  mapFrom f 0 l.

Section Validator.

(** Types owned by the graphql library, by the entities module and by the
    collaborators; the validator never looks inside them. *)
Context {Document SchemaMeta CompositionConfig TargetSelector
         GraphQLSchema World : Type}.

(** [SchemaObject]: the validator reads [raw] and [document]; [meta] stands
    for the fields that the object spread of line 57 carries along. *)
Record SchemaObject : Type := {
  raw : string;
  document : Document;
  meta : SchemaMeta
}.

(** [project.externalComposition]: the [enabled] flag and the rest. *)
Record ExternalComposition : Type := {
  enabled : bool;
  settings : CompositionConfig
}.

Record Project : Type := {
  externalComposition : ExternalComposition
}.

(** The [Orchestrator] interface, as far as [validate] uses it.  Each
    method is asynchronous: it always hands back a promise, which settles
    with a value or a rejection chosen by the outside world. *)
Record Orchestrator : Type := {
  orchValidate :
    World -> list SchemaObject -> option ExternalComposition ->
    Result (list SchemaError.t) * World;
  orchBuild :
    World -> list SchemaObject -> ExternalComposition ->
    Result (option SchemaObject) * World
}.

(** What the class and the module import: the graphql functions [parse]
    and [concatAST], the helpers [hashSchema] and [buildSchema] of
    shared/schema, and the injected inspector.  [rejectsFirst] tells which
    of two rejected promises [Promise.all] reports: [true] for the first
    of the array. *)
Record Imports : Type := {
  parse : string -> Result Document;
  concatAST : list Document -> Document;
  hashSchema : SchemaObject -> string;
  buildSchema : option SchemaObject -> Result GraphQLSchema;
  inspectorDiff :
    World -> GraphQLSchema -> GraphQLSchema -> TargetSelector ->
    Result (list SchemaChange.t) * World;
  rejectsFirst : World -> bool
}.

(** The argument object of [validate], lines 29-50. *)
Record Input : Type := {
  orchestrator : Orchestrator;
  selector : TargetSelector;
  incoming : SchemaObject;
  existing : option SchemaObject;
  isInitial : bool;
  before : list SchemaObject;
  after : list SchemaObject;
  baseSchema : option string;
  experimental_acceptBreakingChanges : bool;
  project : Project
}.

(** One call on a collaborator, with what it was given and how it ended. *)
Inductive Event : Type :=
| OrchestratorValidate (schemas : list SchemaObject)
    (config : option ExternalComposition)
    (outcome : Result (list SchemaError.t))
| OrchestratorBuild (schemas : list SchemaObject)
    (config : ExternalComposition)
    (outcome : Result (option SchemaObject))
| BuildSchema (schema : option SchemaObject)
    (outcome : Result GraphQLSchema)
| InspectorDiff (existingSchema incomingSchema : GraphQLSchema)
    (scope : TargetSelector)
    (outcome : Result (list SchemaChange.t)).

Variable imports : Imports.

(** ** The monad: world and mutable locals, exceptions, event log *)

Record Frame : Type := {
  world : World;
  errorsVar : list SchemaError.t;
  changesVar : list SchemaChange.t
}.

Definition M (A : Type) : Type := Frame -> Result A * Frame * list Event.

Definition ret {A : Type} (a : A) : M A := fun s => (Returned a, s, []).

Definition throw {A : Type} (e : Error.t) : M A := fun s => (Thrown e, s, []).

Definition bind {A B : Type} (m : M A) (f : A -> M B) : M B :=
  fun s =>
    match m s with
    | (Returned a, s1, log1) =>
        match f a s1 with
        | (r, s2, log2) => (r, s2, log1 ++ log2)
        end
    | (Thrown e, s1, log1) => (Thrown e, s1, log1)
    end.

(** [try { body } catch (error) { handler }]: the handler runs in the state
    the body left behind. *)
Definition tryCatch {A : Type} (body : M A) (handler : Error.t -> M A) : M A :=
  fun s =>
    match body s with
    | (Returned a, s1, log1) => (Returned a, s1, log1)
    | (Thrown e, s1, log1) =>
        match handler e s1 with
        | (r, s2, log2) => (r, s2, log1 ++ log2)
        end
    end.

(** A pure evaluation that may throw. *)
Definition lift {A : Type} (r : Result A) : M A :=
  match r with
  | Returned a => ret a
  | Thrown e => throw e
  end.

Notation "x <- m ;; k" := (bind m (fun x => k))
  (at level 61, m at next level, right associativity).
Notation "m ;;; k" := (bind m (fun _ => k))
  (at level 61, right associativity).

Definition getErrors : M (list SchemaError.t) :=
  fun s => (Returned (errorsVar s), s, []).

Definition getChanges : M (list SchemaChange.t) :=
  fun s => (Returned (changesVar s), s, []).

Definition setErrors (l : list SchemaError.t) : M unit :=
  fun s => (Returned tt,
            {| world := world s; errorsVar := l; changesVar := changesVar s |},
            []).

Definition setChanges (l : list SchemaChange.t) : M unit :=
  fun s => (Returned tt,
            {| world := world s; errorsVar := errorsVar s; changesVar := l |},
            []).

(** [errors.push(e)] *)
Definition pushError (e : SchemaError.t) : M unit :=
  fun s => (Returned tt,
            {| world := world s; errorsVar := errorsVar s ++ [e];
               changesVar := changesVar s |},
            []).

(** A call on the outside world: run it, keep the new world, log it. *)
Definition call {A : Type} (f : World -> Result A * World)
    (event : Result A -> Event) : M A :=
  fun s =>
    match f (world s) with
    | (r, w) =>
        (r, {| world := w; errorsVar := errorsVar s;
               changesVar := changesVar s |}, [event r])
    end.

(** [Array.prototype.forEach] *)
Fixpoint forEach {A : Type} (l : list A) (f : A -> M unit) : M unit :=
  match l with
  | [] => ret tt
  | x :: rest => f x ;;; forEach rest f
  end.

(** How [Promise.all] settles on two settled promises: the pair of values,
    or the rejection that came first. *)
Definition settle {A : Type} (firstWins : bool) (r1 r2 : Result A)
    : Result (A * A) :=
  match r1, r2 with
  | Returned a, Returned b => Returned (a, b)
  | Thrown e, Returned _ => Thrown e
  | Returned _, Thrown e => Thrown e
  | Thrown e1, Thrown e2 => if firstWins then Thrown e1 else Thrown e2
  end.

(** [await Promise.all([p, q])]: the array literal starts both calls, in
    order, before anything is awaited.  The log keeps how each of them ends,
    also when the rejection of the other one is what the [await] reports. *)
Definition promiseAll {A : Type} (p q : M A) : M (A * A) :=
  fun s =>
    match p s with
    | (r1, s1, log1) =>
        match q s1 with
        | (r2, s2, log2) =>
            (settle (rejectsFirst imports (world s2)) r1 r2, s2, log1 ++ log2)
        end
    end.

(** ** The program *)

(** Lines 53-65: the base schema goes into element 0 of [after]. *)
Definition afterWithBase (baseSchema : option string)
    (after : list SchemaObject) : Result (list SchemaObject) :=
  if truthy baseSchema then
    arrayMap
      (fun schema index =>
         if Nat.eqb index 0 then
           match parse imports (orEmpty baseSchema) with
           | Thrown e => Thrown e
           | Returned base =>
               Returned
                 {| raw := String.append (orEmpty baseSchema) (raw schema);
                    document := concatAST imports [base; document schema];
                    meta := meta schema |}
           end
         else Returned schema)
      after
  else Returned after.

(** Line 67: [existing && hashSchema(existing) === hashSchema(incoming)];
    an object is always truthy. *)
Definition areIdentical (existing : option SchemaObject)
    (incoming : SchemaObject) : bool :=
  match existing with
  | Some e =>
      String.eqb (hashSchema imports e) (hashSchema imports incoming)
  | None => false
  end.

(** Line 80: the configuration handed to [orchestrator.validate]. *)
Definition validateConfig (p : Project) : option ExternalComposition :=
  if enabled (externalComposition p) then Some (externalComposition p)
  else None.

Definition orchestratorValidate (o : Orchestrator)
    (schemas : list SchemaObject) (config : option ExternalComposition)
    : M (list SchemaError.t) :=
  call (fun w => orchValidate o w schemas config)
       (OrchestratorValidate schemas config).

Definition orchestratorBuild (o : Orchestrator)
    (schemas : list SchemaObject) (config : ExternalComposition)
    : M (option SchemaObject) :=
  call (fun w => orchBuild o w schemas config)
       (OrchestratorBuild schemas config).

Definition callBuildSchema (schema : option SchemaObject) : M GraphQLSchema :=
  call (fun w => (buildSchema imports schema, w)) (BuildSchema schema).

Definition callInspectorDiff (a b : GraphQLSchema) (scope : TargetSelector)
    : M (list SchemaChange.t) :=
  call (fun w => inspectorDiff imports w a b scope) (InspectorDiff a b scope).

(** Lines 95-118, the body of the [try]. *)
Definition compareSchemas (i : Input) : M unit :=
  built <- promiseAll
             (orchestratorBuild (orchestrator i) (before i)
                (externalComposition (project i)))
             (orchestratorBuild (orchestrator i) (after i)
                (externalComposition (project i))) ;;
  match built with
  | (Some existingSchema, incomingSchema) =>
      a <- callBuildSchema (Some existingSchema) ;;
      b <- callBuildSchema incomingSchema ;;
      found <- callInspectorDiff a b (selector i) ;;
      setChanges found ;;;
      cs <- getChanges ;;
      if existsb isBreaking cs then
        if experimental_acceptBreakingChanges i then
          ret tt
        else
          forEach cs
            (fun change =>
               if isBreaking change then
                 pushError (breakingChangeError change)
               else ret tt)
      else ret tt
  | (None, _) => ret tt
  end.

(** Lines 119-123, the [catch] clause: the argument is evaluated before the
    push, so nothing is pushed when reading the message throws, and the throw
    leaves the function. *)
Definition catchClause (error : Error.t) : M unit :=
  failure <- lift (compareFailure error) ;;
  pushError failure.

(** Lines 51-134, from the state in which the call starts. *)
Definition validateBody (i : Input) : M ValidationResult :=
  merged <- lift (afterWithBase (baseSchema i) (after i)) ;;
  if areIdentical (existing i) (incoming i) then
    ret identicalResult
  else
    composition <- orchestratorValidate (orchestrator i) merged
                     (validateConfig (project i)) ;;
    setErrors composition ;;;
    if isInitial i then
      es <- getErrors ;;
      ret {| valid := Nat.eqb (length es) 0;
             isComposable := Nat.eqb (length es) 0;
             errors := es;
             changes := [] |}
    else
      setChanges [] ;;;
      tryCatch (compareSchemas i) catchClause ;;;
      es <- getErrors ;;
      cs <- getChanges ;;
      let hasErrors := Nat.ltb 0 (length es) in
      let valid := negb hasErrors in
      ret {| valid := valid; isComposable := valid;
             errors := es; changes := cs |}.

(** [SchemaValidator.validate]: the completion of the call, the world it
    leaves, and the calls it made on its collaborators, in order. *)
Definition validate (i : Input) (w : World)
    : Result ValidationResult * World * list Event :=
  match validateBody i {| world := w; errorsVar := []; changesVar := [] |} with
  | (r, s, log) => (r, world s, log)
  end.

(** ** Reading the event log *)

(** The calls on [orchestrator.validate]: schema set and configuration. *)
Definition validateCalls (log : list Event)
    : list (list SchemaObject * option ExternalComposition) :=
  flat_map (fun ev => match ev with
                      | OrchestratorValidate l c _ => [(l, c)]
                      | _ => []
                      end) log.

(** What [orchestrator.validate] answered. *)
Definition validateOutcomes (log : list Event)
    : list (Result (list SchemaError.t)) :=
  flat_map (fun ev => match ev with
                      | OrchestratorValidate _ _ r => [r]
                      | _ => []
                      end) log.

(** The calls on [orchestrator.build], in the order they were issued: the
    build of [before] is the first one, the build of [after] the second. *)
Definition buildCalls (log : list Event)
    : list (list SchemaObject * ExternalComposition) :=
  flat_map (fun ev => match ev with
                      | OrchestratorBuild l c _ => [(l, c)]
                      | _ => []
                      end) log.

Definition buildOutcomes (log : list Event)
    : list (Result (option SchemaObject)) :=
  flat_map (fun ev => match ev with
                      | OrchestratorBuild _ _ r => [r]
                      | _ => []
                      end) log.

Definition beforeBuildOutcome (log : list Event)
    : option (Result (option SchemaObject)) :=
  nth_error (buildOutcomes log) 0.

Definition afterBuildOutcome (log : list Event)
    : option (Result (option SchemaObject)) :=
  nth_error (buildOutcomes log) 1.

(** The calls on [inspector.diff] and what it answered. *)
Definition diffCalls (log : list Event)
    : list (GraphQLSchema * GraphQLSchema * TargetSelector) :=
  flat_map (fun ev => match ev with
                      | InspectorDiff a b t _ => [(a, b, t)]
                      | _ => []
                      end) log.

Definition diffOutcomes (log : list Event)
    : list (Result (list SchemaChange.t)) :=
  flat_map (fun ev => match ev with
                      | InspectorDiff _ _ _ r => [r]
                      | _ => []
                      end) log.

Definition thrownBy {A : Type} (r : Result A) : list Error.t :=
  match r with
  | Thrown e => [e]
  | Returned _ => []
  end.

(** Every exception raised by the builds, by [buildSchema] or by the diff. *)
Definition raisedComparing (log : list Event) : list Error.t :=
  flat_map (fun ev => match ev with
                      | OrchestratorValidate _ _ _ => []
                      | OrchestratorBuild _ _ r => thrownBy r
                      | BuildSchema _ r => thrownBy r
                      | InspectorDiff _ _ _ r => thrownBy r
                      end) log.

(** ** The paths through [validate] *)

(** The errors that the breaking-change policy of lines 102-117 pushes. *)
Definition promoted (accept : bool) (cs : list SchemaChange.t)
    : list SchemaError.t :=
  if existsb isBreaking cs then
    if accept then [] else map breakingChangeError (filter isBreaking cs)
  else [].

(** The object built by lines 125-133. *)
Definition verdict (es : list SchemaError.t) (cs : list SchemaChange.t)
    : ValidationResult :=
  {| valid := negb (Nat.ltb 0 (length es));
     isComposable := negb (Nat.ltb 0 (length es));
     errors := es; changes := cs |}.

(** The object built by lines 84-89. *)
Definition initialVerdict (es : list SchemaError.t) : ValidationResult :=
  {| valid := Nat.eqb (length es) 0;
     isComposable := Nat.eqb (length es) 0;
     errors := es; changes := [] |}.

(** The ways the body of the [try], lines 95-118, throws when entered in
    world [w1]: what is thrown, the world, and the calls made. *)
Inductive Raised (i : Input) (w1 : World)
    : Error.t -> World -> list Event -> Prop :=
| RaisedRejected r1 w2 r2 w3 e :
    orchBuild (orchestrator i) w1 (before i)
      (externalComposition (project i)) = (r1, w2) ->
    orchBuild (orchestrator i) w2 (after i)
      (externalComposition (project i)) = (r2, w3) ->
    settle (rejectsFirst imports w3) r1 r2 = Thrown e ->
    Raised i w1 e w3
      [OrchestratorBuild (before i) (externalComposition (project i)) r1;
       OrchestratorBuild (after i) (externalComposition (project i)) r2]
| RaisedExistingUnbuilt ex w2 inc w3 e :
    orchBuild (orchestrator i) w1 (before i)
      (externalComposition (project i)) = (Returned (Some ex), w2) ->
    orchBuild (orchestrator i) w2 (after i)
      (externalComposition (project i)) = (Returned inc, w3) ->
    buildSchema imports (Some ex) = Thrown e ->
    Raised i w1 e w3
      [OrchestratorBuild (before i) (externalComposition (project i))
         (Returned (Some ex));
       OrchestratorBuild (after i) (externalComposition (project i))
         (Returned inc);
       BuildSchema (Some ex) (Thrown e)]
| RaisedIncomingUnbuilt ex w2 inc w3 a e :
    orchBuild (orchestrator i) w1 (before i)
      (externalComposition (project i)) = (Returned (Some ex), w2) ->
    orchBuild (orchestrator i) w2 (after i)
      (externalComposition (project i)) = (Returned inc, w3) ->
    buildSchema imports (Some ex) = Returned a ->
    buildSchema imports inc = Thrown e ->
    Raised i w1 e w3
      [OrchestratorBuild (before i) (externalComposition (project i))
         (Returned (Some ex));
       OrchestratorBuild (after i) (externalComposition (project i))
         (Returned inc);
       BuildSchema (Some ex) (Returned a);
       BuildSchema inc (Thrown e)]
| RaisedDiffFailed ex w2 inc w3 a b e w4 :
    orchBuild (orchestrator i) w1 (before i)
      (externalComposition (project i)) = (Returned (Some ex), w2) ->
    orchBuild (orchestrator i) w2 (after i)
      (externalComposition (project i)) = (Returned inc, w3) ->
    buildSchema imports (Some ex) = Returned a ->
    buildSchema imports inc = Returned b ->
    inspectorDiff imports w3 a b (selector i) = (Thrown e, w4) ->
    Raised i w1 e w4
      [OrchestratorBuild (before i) (externalComposition (project i))
         (Returned (Some ex));
       OrchestratorBuild (after i) (externalComposition (project i))
         (Returned inc);
       BuildSchema (Some ex) (Returned a);
       BuildSchema inc (Returned b);
       InspectorDiff a b (selector i) (Thrown e)].

(** The ways through the [try]/[catch] of lines 94-123 that end normally,
    entered in world [w1] with the composition errors [es]: the errors and
    changes it leaves, the world, and the calls made. *)
Inductive Compared (i : Input) (es : list SchemaError.t) (w1 : World)
    : list SchemaError.t -> list SchemaChange.t -> World -> list Event -> Prop :=
| ComparedCaught e failure w' log :
    Raised i w1 e w' log ->
    compareFailure e = Returned failure ->
    Compared i es w1 (es ++ [failure]) [] w' log
| ComparedNothing w2 inc w3 :
    orchBuild (orchestrator i) w1 (before i)
      (externalComposition (project i)) = (Returned None, w2) ->
    orchBuild (orchestrator i) w2 (after i)
      (externalComposition (project i)) = (Returned inc, w3) ->
    Compared i es w1 es [] w3
      [OrchestratorBuild (before i) (externalComposition (project i))
         (Returned None);
       OrchestratorBuild (after i) (externalComposition (project i))
         (Returned inc)]
| ComparedDiffed ex w2 inc w3 a b cs w4 :
    orchBuild (orchestrator i) w1 (before i)
      (externalComposition (project i)) = (Returned (Some ex), w2) ->
    orchBuild (orchestrator i) w2 (after i)
      (externalComposition (project i)) = (Returned inc, w3) ->
    buildSchema imports (Some ex) = Returned a ->
    buildSchema imports inc = Returned b ->
    inspectorDiff imports w3 a b (selector i) = (Returned cs, w4) ->
    Compared i es w1
      (es ++ promoted (experimental_acceptBreakingChanges i) cs) cs w4
      [OrchestratorBuild (before i) (externalComposition (project i))
         (Returned (Some ex));
       OrchestratorBuild (after i) (externalComposition (project i))
         (Returned inc);
       BuildSchema (Some ex) (Returned a);
       BuildSchema inc (Returned b);
       InspectorDiff a b (selector i) (Returned cs)].

(** The ways through the whole call. *)
Inductive Run (i : Input) (w : World)
    : Result ValidationResult -> World -> list Event -> Prop :=
| RunBaseFault e :
    afterWithBase (baseSchema i) (after i) = Thrown e ->
    Run i w (Thrown e) w []
| RunIdentical merged :
    afterWithBase (baseSchema i) (after i) = Returned merged ->
    areIdentical (existing i) (incoming i) = true ->
    Run i w (Returned identicalResult) w []
| RunCompositionFault merged e w1 :
    afterWithBase (baseSchema i) (after i) = Returned merged ->
    areIdentical (existing i) (incoming i) = false ->
    orchValidate (orchestrator i) w merged (validateConfig (project i))
      = (Thrown e, w1) ->
    Run i w (Thrown e) w1
      [OrchestratorValidate merged (validateConfig (project i)) (Thrown e)]
| RunInitial merged es w1 :
    afterWithBase (baseSchema i) (after i) = Returned merged ->
    areIdentical (existing i) (incoming i) = false ->
    orchValidate (orchestrator i) w merged (validateConfig (project i))
      = (Returned es, w1) ->
    isInitial i = true ->
    Run i w (Returned (initialVerdict es)) w1
      [OrchestratorValidate merged (validateConfig (project i))
         (Returned es)]
| RunCompared merged es w1 es' cs w' log :
    afterWithBase (baseSchema i) (after i) = Returned merged ->
    areIdentical (existing i) (incoming i) = false ->
    orchValidate (orchestrator i) w merged (validateConfig (project i))
      = (Returned es, w1) ->
    isInitial i = false ->
    Compared i es w1 es' cs w' log ->
    Run i w (Returned (verdict es' cs)) w'
      (OrchestratorValidate merged (validateConfig (project i))
         (Returned es) :: log)
| RunCatchFault merged es w1 e raised w' log :
    afterWithBase (baseSchema i) (after i) = Returned merged ->
    areIdentical (existing i) (incoming i) = false ->
    orchValidate (orchestrator i) w merged (validateConfig (project i))
      = (Returned es, w1) ->
    isInitial i = false ->
    Raised i w1 e w' log ->
    compareFailure e = Thrown raised ->
    Run i w (Thrown raised) w'
      (OrchestratorValidate merged (validateConfig (project i))
         (Returned es) :: log).

End Validator.


(** ** A small scripted deployment *)

(** Documents are lists of definitions, built schemas likewise; the world
    counts the remote calls answered so far, and the collaborators answer
    from a script: [orchestrator.validate] is the first remote call of a run,
    the build of [before] the second, the build of [after] the third. *)
Module Example.

Definition Document : Type := list string.
Definition Schema : Type := @SchemaObject Document string.
Definition Config : Type := @ExternalComposition string.
Definition Args : Type := @Input Document string string string nat.
Definition Env : Type := @Imports Document string string (list string) nat.
Definition Log : Type := list (@Event Document string string string (list string)).

(** As graphql's parser does, [parseText] rejects a source without any
    definition; here a definition starts with the keyword [type]. *)
Definition parseText (source : string) : Result Document :=
  if String.eqb source EmptyString then
    Thrown (Error.mk "Syntax Error: Unexpected <EOF>.")
  else if String.prefix "type " source then Returned [source]
  else Thrown (Error.mk "Syntax Error: Unexpected Name.").

Definition buildText (schema : option Schema) : Result (list string) :=
  match schema with
  | Some s => Returned (document s)
  | None => Thrown (Error.mk "Cannot read properties of null")
  end.

Definition env (diffAnswer : Result (list SchemaChange.t)) : Env :=
  {| parse := parseText;
     concatAST := @concat string;
     hashSchema := fun s => raw s;
     buildSchema := buildText;
     inspectorDiff := fun w _ _ _ => (diffAnswer, S w);
     rejectsFirst := fun _ => true |}.

Definition scripted (validateAnswer : Result (list SchemaError.t))
    (beforeAnswer afterAnswer : Result (option Schema))
    : @Orchestrator Document string string nat :=
  {| orchValidate := fun w _ _ => (validateAnswer, S w);
     orchBuild := fun w _ _ =>
       (if Nat.eqb w 1 then beforeAnswer else afterAnswer, S w) |}.

Definition users : Schema :=
  {| raw := "type User"; document := ["type User"]; meta := "users" |}.

Definition usersV2 : Schema :=
  {| raw := "type Account"; document := ["type Account"]; meta := "users" |}.

Definition orders : Schema :=
  {| raw := "type Order"; document := ["type Order"]; meta := "orders" |}.

Definition composed (l : list Schema) : Schema :=
  {| raw := String.concat " " (map raw l);
     document := concat (map document l);
     meta := "supergraph" |}.

Definition disabled : @Project string :=
  {| externalComposition := {| enabled := false; settings := "http://compose" |} |}.

Definition removal : SchemaChange.t :=
  {| SchemaChange.criticality := Breaking;
     SchemaChange.message := "Type User was removed";
     SchemaChange.path := Some ["User"] |}.

Definition addition : SchemaChange.t :=
  {| SchemaChange.criticality := Safe;
     SchemaChange.message := "Type Account was added";
     SchemaChange.path := Some ["Account"] |}.

Definition conflict : SchemaError.t :=
  {| SchemaError.message := "Type Order is defined twice";
     SchemaError.path := None |}.

Definition timeout : Error.t := Error.mk "upstream timed out".

(** An update of the users service next to an unchanged orders service. *)
Definition update (o : @Orchestrator Document string string nat)
    (base : option string) (accept : bool) : Args :=
  {| orchestrator := o;
     selector := "acme/shop/production";
     incoming := usersV2;
     existing := Some users;
     isInitial := false;
     before := [users; orders];
     after := [usersV2; orders];
     baseSchema := base;
     experimental_acceptBreakingChanges := accept;
     project := disabled |}.

(** The same schema pushed again, flagged by the caller as given. *)
Definition republish (o : @Orchestrator Document string string nat)
    (base : option string) (initial : bool) : Args :=
  {| orchestrator := o;
     selector := "acme/shop/production";
     incoming := users;
     existing := Some users;
     isInitial := initial;
     before := [users];
     after := [users];
     baseSchema := base;
     experimental_acceptBreakingChanges := false;
     project := disabled |}.

(** The first schema of a target. *)
Definition inaugural (o : @Orchestrator Document string string nat) : Args :=
  {| orchestrator := o;
     selector := "acme/shop/production";
     incoming := users;
     existing := None;
     isInitial := true;
     before := [];
     after := [users];
     baseSchema := None;
     experimental_acceptBreakingChanges := false;
     project := disabled |}.

(** Builds that answer with the composition of their input. *)
Definition built (l : list Schema) : Result (option Schema) :=
  Returned (Some (composed l)).

Definition healthy : @Orchestrator Document string string nat :=
  scripted (Returned []) (built [users; orders]) (built [usersV2; orders]).

(** An orchestrator that reports a conflict; its builds answer as given. *)
Definition conflicting (beforeAnswer afterAnswer : Result (option Schema))
    : @Orchestrator Document string string nat :=
  scripted (Returned [conflict]) beforeAnswer afterAnswer.

Definition found : list SchemaChange.t := [removal; addition].

(** The users service with the base schema [type Query] in front. *)
Definition based : Schema :=
  {| raw := "type Querytype Account";
     document := ["type Query"; "type Account"];
     meta := "users" |}.

(** The calls of a run of [update] up to and including the two builds. *)
Definition opening (merged : list Schema)
    (validateAnswer : Result (list SchemaError.t))
    (beforeAnswer afterAnswer : Result (option Schema)) : Log :=
  [OrchestratorValidate merged None validateAnswer;
   OrchestratorBuild [users; orders] (externalComposition disabled)
     beforeAnswer;
   OrchestratorBuild [usersV2; orders] (externalComposition disabled)
     afterAnswer].

(** The calls of a run of [update] on [healthy] that gets to the diff. *)
Definition comparison (merged : list Schema) : Log :=
  opening merged (Returned []) (built [users; orders])
    (built [usersV2; orders])
  ++ [BuildSchema (Some (composed [users; orders]))
        (Returned ["type User"; "type Order"]);
      BuildSchema (Some (composed [usersV2; orders]))
        (Returned ["type Account"; "type Order"]);
      InspectorDiff ["type User"; "type Order"] ["type Account"; "type Order"]
        "acme/shop/production" (Returned found)].

Definition rejected : ValidationResult :=
  {| valid := false; isComposable := false;
     errors := [breakingChangeError removal]; changes := found |}.

Definition waived : ValidationResult :=
  {| valid := true; isComposable := true; errors := []; changes := found |}.

Definition unparsed : Error.t := Error.mk "Syntax Error: Unexpected Name.".

Definition endOfInput : Error.t := Error.mk "Syntax Error: Unexpected <EOF>.".

(** The deployment whose inspector finds [found]. *)
Definition deployment : Env := env (Returned found).

(** The update, breaking changes not waived, no base schema. *)
Definition strict : Args := update healthy None false.

(** The update, breaking changes waived, base schema [type Query]. *)
Definition lenient : Args := update healthy (Some "type Query") true.

(** The update against an orchestrator whose build of [after] times out. *)
Definition flaky : Args :=
  update (conflicting (built [users; orders]) (Thrown timeout)) None false.

(** The update against an orchestrator that has nothing built for [before]. *)
Definition orphan : Args :=
  update (conflicting (Returned None) (built [usersV2; orders])) None false.

(** Nothing built for [before], and the build of [after] times out. *)
Definition orphanFlaky : Args :=
  update (conflicting (Returned None) (Thrown timeout)) None false.

(** The first schema of a target, on a conflicting orchestrator. *)
Definition firstConflicting : Args :=
  inaugural (conflicting (Returned None) (Returned None)).

Definition failed (es : list SchemaError.t) : ValidationResult :=
  {| valid := false; isComposable := false; errors := es; changes := [] |}.

(** The comparison failure made from [timeout]. *)
Definition timedOut : SchemaError.t :=
  comparisonError (Some "upstream timed out").



Definition deprecation : SchemaChange.t :=
  {| SchemaChange.criticality := Dangerous;
     SchemaChange.message := "Field User.name was deprecated";
     SchemaChange.path := Some ["User"; "name"] |}.

(** The deployment whose inspector finds nothing breaking. *)
Definition calm : Env := env (Returned [deprecation; addition]).

(** The update against an orchestrator whose composability check times out. *)
Definition unreachable : Args :=
  update (scripted (Thrown timeout) (built [users; orders])
            (built [usersV2; orders])) None false.

(** The update against an orchestrator that builds nothing for [after]. *)
Definition halfBuilt : Args :=
  update (scripted (Returned []) (built [users; orders]) (Returned None))
    None false.

Definition missingSchema : Error.t :=
  Error.mk "Cannot read properties of null".

(** The comparison failure made from [missingSchema]. *)
Definition missed : SchemaError.t :=
  comparisonError (Some "Cannot read properties of null").


(** The calls of a run of [strict] on the [calm] deployment. *)
Definition calmLog : Log :=
  opening [usersV2; orders] (Returned []) (built [users; orders])
    (built [usersV2; orders])
  ++ [BuildSchema (Some (composed [users; orders]))
        (Returned ["type User"; "type Order"]);
      BuildSchema (Some (composed [usersV2; orders]))
        (Returned ["type Account"; "type Order"]);
      InspectorDiff ["type User"; "type Order"] ["type Account"; "type Order"]
        "acme/shop/production" (Returned [deprecation; addition])].

(** The calls of a run of [halfBuilt]. *)
Definition halfBuiltLog : Log :=
  opening [usersV2; orders] (Returned []) (built [users; orders])
    (Returned None)
  ++ [BuildSchema (Some (composed [users; orders]))
        (Returned ["type User"; "type Order"]);
      BuildSchema None (Thrown missingSchema)].


(** The one call of a run of [unreachable]. *)
Definition unreachableLog : Log :=
  [OrchestratorValidate [usersV2; orders] None (Thrown timeout)].

(** The one call of a run of [firstConflicting]. *)
Definition inauguralLog : Log :=
  [OrchestratorValidate [users] None (Returned [conflict])].

End Example.

(** * Properties *)

Section Properties.

Context {Document SchemaMeta CompositionConfig TargetSelector
         GraphQLSchema World : Type}.

Variable imports :
  @Imports Document SchemaMeta TargetSelector GraphQLSchema World.

Implicit Types
  (i : @Input Document SchemaMeta CompositionConfig TargetSelector World)
  (log : list (@Event Document SchemaMeta CompositionConfig TargetSelector
                      GraphQLSchema))
  (w : World).

(** The loop of lines 108-115 pushes, in order, one error for each breaking
    change and touches nothing else. *)
Lemma forEach_pushes (cs : list SchemaChange.t) :
  forall s : Frame,
    forEach cs
      (fun change =>
         if isBreaking change then pushError (breakingChangeError change)
         else ret tt) s
    = (Returned tt,
       {| world := world s;
          errorsVar :=
            errorsVar s ++ map breakingChangeError (filter isBreaking cs);
          changesVar := changesVar s |},
       @nil (@Event Document SchemaMeta CompositionConfig TargetSelector
                    GraphQLSchema)) :> _ * @Frame World * _.
Proof.
  induction cs as [|c cs IH]; intros s; simpl.
  - unfold ret. rewrite app_nil_r. destruct s; reflexivity.
  - unfold bind. destruct (isBreaking c); simpl.
    + rewrite IH. simpl. rewrite <- app_assoc. reflexivity.
    + rewrite IH. reflexivity.
Qed.

(** Replays recorded answers of the collaborators inside a goal. *)
Ltac replay :=
  repeat first
    [ progress simpl
    | match goal with
      | H : ?call = (_, _) |- context [?call] => rewrite H
      | H : ?call = Returned _ |- context [?call] => rewrite H
      | H : ?call = Thrown _ |- context [?call] => rewrite H
      | H : ?test = true |- context [?test] => rewrite H
      | H : ?test = false |- context [?test] => rewrite H
      end ].

(** What the [catch] clause does in a state. *)
Lemma catchClause_run (e : Error.t) (s : @Frame World) :
  catchClause e s
  = match compareFailure e with
    | Returned failure =>
        (Returned tt,
         {| world := world s; errorsVar := errorsVar s ++ [failure];
            changesVar := changesVar s |},
         @nil (@Event Document SchemaMeta CompositionConfig TargetSelector
                      GraphQLSchema))
    | Thrown raised => (Thrown raised, s, [])
    end.
Proof.
  unfold catchClause, bind, lift.
  destruct (compareFailure e); reflexivity.
Qed.

(** The body of the [try] of a non-initial run, started with the composition
    errors [es] in world [w1], ends normally along [ComparedNothing] or
    [ComparedDiffed], or throws along one of the ways of [Raised], in which
    case the errors are as they were and no changes are set. *)
Lemma compareSchemas_run i (es : list SchemaError.t) (w1 : World) :
  (exists es' cs w' log,
     compareSchemas imports i
       {| world := w1; errorsVar := es; changesVar := [] |}
     = (Returned tt, {| world := w'; errorsVar := es'; changesVar := cs |}, log)
     /\ Compared imports i es w1 es' cs w' log)
  \/ (exists e w' log,
        compareSchemas imports i
          {| world := w1; errorsVar := es; changesVar := [] |}
        = (Thrown e, {| world := w'; errorsVar := es; changesVar := [] |}, log)
        /\ Raised imports i w1 e w' log).
Proof.
  unfold compareSchemas, bind, promiseAll, orchestratorBuild,
    callBuildSchema, callInspectorDiff, call.
  destruct (orchBuild (orchestrator i) w1 (before i)
              (externalComposition (project i))) as [r1 w2] eqn:B1.
  destruct (orchBuild (orchestrator i) w2 (after i)
              (externalComposition (project i))) as [r2 w3] eqn:B2.
  destruct (settle (rejectsFirst imports w3) r1 r2) as [[ex inc]|e] eqn:S.
  - assert (R1 : r1 = Returned ex /\ r2 = Returned inc).
    { destruct r1, r2; simpl in S;
        try destruct (rejectsFirst imports w3); inversion S; auto. }
    destruct R1; subst r1 r2.
    destruct ex as [ex|].
    + destruct (buildSchema imports (Some ex)) as [a|e] eqn:BS1.
      * destruct (buildSchema imports inc) as [b|e] eqn:BS2.
        -- destruct (inspectorDiff imports w3 a b (selector i))
             as [[cs|e] w4] eqn:D.
           ++ left.
              exists (es ++ promoted (experimental_acceptBreakingChanges i) cs),
                cs, w4.
              eexists; split; [|eapply ComparedDiffed; eassumption].
              replay. unfold promoted.
              destruct (existsb isBreaking cs); simpl.
              ** destruct (experimental_acceptBreakingChanges i); simpl.
                 --- rewrite app_nil_r. reflexivity.
                 --- rewrite forEach_pushes. reflexivity.
              ** rewrite app_nil_r. reflexivity.
           ++ right. do 3 eexists; split; [|eapply RaisedDiffFailed; eassumption].
              replay. reflexivity.
        -- right.
           do 3 eexists; split; [|eapply RaisedIncomingUnbuilt; eassumption].
           replay. reflexivity.
      * right.
        do 3 eexists; split; [|eapply RaisedExistingUnbuilt; eassumption].
        replay. reflexivity.
    + left. do 4 eexists; split; [|eapply ComparedNothing; eassumption].
      replay. reflexivity.
  - right. do 3 eexists; split; [|eapply RaisedRejected; eassumption].
    replay. reflexivity.
Qed.

(** The [try]/[catch] of a non-initial run ends normally along one of the
    ways of [Compared], or throws what the [catch] clause throws on what was
    raised. *)
Lemma tryCatch_compared i (es : list SchemaError.t) (w1 : World) :
  (exists es' cs w' log,
     tryCatch (compareSchemas imports i) catchClause
       {| world := w1; errorsVar := es; changesVar := [] |}
     = (Returned tt, {| world := w'; errorsVar := es'; changesVar := cs |}, log)
     /\ Compared imports i es w1 es' cs w' log)
  \/ (exists e raised w' log,
        tryCatch (compareSchemas imports i) catchClause
          {| world := w1; errorsVar := es; changesVar := [] |}
        = (Thrown raised,
           {| world := w'; errorsVar := es; changesVar := [] |}, log)
        /\ Raised imports i w1 e w' log
        /\ compareFailure e = Thrown raised).
Proof.
  unfold tryCatch.
  destruct (compareSchemas_run i es w1)
    as [(es' & cs & w' & log & E & C)|(e & w' & log & E & R)]; rewrite E.
  - left. exists es', cs, w', log. auto.
  - rewrite catchClause_run.
    destruct (compareFailure e) as [failure|raised] eqn:F; simpl.
    + left. exists (es ++ [failure]), [], w', log.
      rewrite app_nil_r. split; [reflexivity|].
      eapply ComparedCaught; eassumption.
    + right. exists e, raised, w', log.
      rewrite app_nil_r. auto.
Qed.

(** Every call of [validate] follows one of the ways of [Run]. *)
Theorem validate_run i w :
  forall r w' log, validate imports i w = (r, w', log) -> Run imports i w r w' log.
Proof.
  intros r w' log.
  unfold validate, validateBody, bind, lift, orchestratorValidate, call.
  destruct (afterWithBase imports (baseSchema i) (after i)) as [merged|e] eqn:A.
  - destruct (areIdentical imports (existing i) (incoming i)) eqn:I.
    + simpl. intros E; inversion E; subst. eapply RunIdentical; eassumption.
    + destruct (orchValidate (orchestrator i) w merged
                  (validateConfig (project i))) as [[es|e] w1] eqn:V.
      * destruct (isInitial i) eqn:N.
        -- replay. intros E; inversion E; subst.
           eapply RunInitial; eassumption.
        -- destruct (tryCatch_compared i es w1)
             as [(es' & cs & w2 & l & T & C)|(e & x & w2 & l & T & R & F)].
           ++ replay. rewrite app_nil_r. intros E; inversion E; subst.
              eapply (RunCompared imports i w merged es w1 es' cs);
                eassumption.
           ++ replay. intros E; inversion E; subst.
              eapply (RunCatchFault imports i w merged es w1 e);
                eassumption.
      * replay. intros E; inversion E; subst.
        eapply RunCompositionFault; eassumption.
  - simpl. intros E; inversion E; subst. apply RunBaseFault; assumption.
Qed.

(** ** The verdict *)

Lemma verdict_valid (es : list SchemaError.t) (cs : list SchemaChange.t) :
  valid (verdict es cs) = Nat.eqb (length es) 0.
Proof. unfold verdict; simpl. destruct es; reflexivity. Qed.

(** C1. Whenever [validate] returns a result, on whichever return path,
    [valid] says that [errors] is empty, and [isComposable] equals [valid]. *)
Theorem validate_verdict_consistent i w (res : ValidationResult) w' log :
  validate imports i w = (Returned res, w', log) ->
  valid res = Nat.eqb (length (errors res)) 0 /\ isComposable res = valid res.
Proof.
  intros H. apply validate_run in H.
  inversion H; subst; split; try reflexivity.
  apply verdict_valid.
Qed.

(** ** Base-schema injection *)

(** A callback that leaves the elements past index 0 alone makes [mapFrom]
    return its argument when started past 0. *)
Lemma mapFrom_past_zero {A : Type} (f : A -> nat -> Result A) :
  (forall x n, f x (S n) = Returned x) ->
  forall l n, mapFrom f (S n) l = Returned l.
Proof.
  intros F l. induction l as [|x l IH]; intros n; simpl.
  - reflexivity.
  - rewrite F, IH. reflexivity.
Qed.

(** What lines 53-65 compute for a truthy base schema and a non-empty
    [after]. *)
Lemma afterWithBase_cons (b : string) (a0 : SchemaObject)
    (rest : list SchemaObject) :
  b <> EmptyString ->
  afterWithBase imports (Some b) (a0 :: rest)
  = match parse imports b with
    | Returned d =>
        Returned ({| raw := String.append b (raw a0);
                     document := concatAST imports [d; document a0];
                     meta := meta a0 |} :: rest)
    | Thrown e => Thrown e
    end.
Proof.
  intros N. unfold afterWithBase, orEmpty, arrayMap. simpl.
  apply String.eqb_neq in N. rewrite N. simpl.
  destruct (parse imports b) as [d|e]; [|reflexivity].
  rewrite mapFrom_past_zero; reflexivity.
Qed.

(** A null or empty base schema leaves [after] as it is. *)
Lemma afterWithBase_falsy (base : option string) (l : list SchemaObject) :
  truthy base = false -> afterWithBase imports base l = Returned l.
Proof. intros F. unfold afterWithBase. rewrite F. reflexivity. Qed.

(** C6, amended.  For a base schema that is neither null nor empty and that
    parses, and a non-empty [after], the merged sequence exists and has the
    length of [after]; its element 0 carries the base text before the
    original text and the concatenation of the parsed base with the original
    document; every later element is the one of [after].  With a null base
    schema, and with the empty string, the sequence is [after] itself,
    whatever [after] is and whatever the parser does. *)
Theorem base_injection (l : list SchemaObject) :
  (forall (b : string) (d : Document) (a0 : SchemaObject),
     b <> EmptyString ->
     parse imports b = Returned d ->
     nth_error l 0 = Some a0 ->
     exists merged,
       afterWithBase imports (Some b) l = Returned merged
       /\ length merged = length l
       /\ nth_error merged 0
          = Some {| raw := String.append b (raw a0);
                    document := concatAST imports [d; document a0];
                    meta := meta a0 |}
       /\ forall k, 0 < k -> nth_error merged k = nth_error l k)
  /\ afterWithBase imports None l = Returned l
  /\ afterWithBase imports (Some EmptyString) l = Returned l.
Proof.
  split; [|split; reflexivity].
  intros b d a0 N P H0.
  destruct l as [|x rest]; [discriminate|].
  simpl in H0. inversion H0; subst x.
  rewrite afterWithBase_cons, P by assumption.
  eexists; repeat split.
  intros [|k] K; [lia|reflexivity].
Qed.

(** ** The identity short-circuit *)

(** C2, amended.  When [existing] is present with the content hash of
    [incoming], and the base-schema injection has not thrown, [validate]
    returns exactly the all-clear result, and no call on the orchestrator or
    the inspector is made. *)
Theorem identical_short_circuit i w (e : SchemaObject)
    (merged : list SchemaObject) :
  existing i = Some e ->
  hashSchema imports e = hashSchema imports (incoming i) ->
  afterWithBase imports (baseSchema i) (after i) = Returned merged ->
  validate imports i w = (Returned identicalResult, w, []).
Proof.
  intros E H A.
  assert (I : areIdentical imports (existing i) (incoming i) = true).
  { unfold areIdentical. rewrite E, H. apply String.eqb_refl. }
  destruct (validate imports i w) as [[r w'] log] eqn:V.
  apply validate_run in V. inversion V; subst; try congruence.
Qed.

(** C10, amended.  A base schema that is neither null nor empty and does not
    parse makes [validate] throw the parser's error as soon as [after] has an
    element: before any collaborator is called and whatever [existing] and
    the hashes are. *)
Theorem unparseable_base_faults i w (b : string) (e : Error.t) :
  baseSchema i = Some b ->
  b <> EmptyString ->
  after i <> [] ->
  parse imports b = Thrown e ->
  validate imports i w = (Thrown e, w, []).
Proof.
  intros B N A P.
  assert (T : afterWithBase imports (baseSchema i) (after i) = Thrown e).
  { destruct (after i) as [|a0 rest]; [congruence|].
    rewrite B, afterWithBase_cons, P by assumption. reflexivity. }
  destruct (validate imports i w) as [[r w'] log] eqn:V.
  apply validate_run in V. inversion V; subst; congruence.
Qed.

(** ** What the collaborators are called with *)

(** Splits a run of [validate] into the ways of [Run], [Compared] and
    [Raised]. *)
Ltac paths H :=
  apply validate_run in H; inversion H; subst;
  try match goal with
      | C : Compared _ _ _ _ _ _ _ _ |- _ => inversion C; subst
      end;
  try match goal with
      | R : Raised _ _ _ _ _ _ |- _ => inversion R; subst
      end.

(** C9. In a run that reaches the build step, [orchestrator.build] is called
    exactly twice, on [before] and then on [after], each time with the
    project's external-composition configuration, whether that is enabled or
    not; [orchestrator.validate] gets the configuration only when it is
    enabled, and null otherwise. *)
Theorem build_receives_configuration i w (r : Result ValidationResult) w' log :
  validate imports i w = (r, w', log) ->
  (buildCalls log <> [] ->
   buildCalls log
   = [(before i, externalComposition (project i));
      (after i, externalComposition (project i))])
  /\ (forall l c, In (l, c) (validateCalls log) ->
      (enabled (externalComposition (project i)) = false -> c = None)
      /\ (enabled (externalComposition (project i)) = true ->
          c = Some (externalComposition (project i)))).
Proof.
  intros H. paths H; simpl; (split; [try congruence|]);
    intros l c I; try contradiction;
    destruct I as [E|[]]; inversion E; subst; unfold validateConfig;
    split; intros D; rewrite D; reflexivity.
Qed.

(** C7, amended.  The merged sequence is what [orchestrator.validate] is
    called with, and nothing else is: the two builds are called with [before]
    and with [after] as they were passed in, and the inspector gets the
    schemas built from the answers of those two builds. *)
Theorem base_reaches_validate_only i w (r : Result ValidationResult) w' log :
  validate imports i w = (r, w', log) ->
  (forall l c, In (l, c) (validateCalls log) ->
     afterWithBase imports (baseSchema i) (after i) = Returned l)
  /\ (buildCalls log = [] \/
      map fst (buildCalls log) = [before i; after i])
  /\ (forall a b t, In (a, b, t) (diffCalls log) ->
      exists ex inc,
        beforeBuildOutcome log = Some (Returned (Some ex))
        /\ afterBuildOutcome log = Some (Returned inc)
        /\ buildSchema imports (Some ex) = Returned a
        /\ buildSchema imports inc = Returned b
        /\ t = selector i).
Proof.
  intros H. paths H; simpl; (split; [|split]); auto;
    try (intros l c I; try contradiction;
         destruct I as [E|[]]; inversion E; subst; assumption);
    intros a0 b0 t I; try contradiction;
    destruct I as [E|[]]; inversion E; subst;
    exists ex, inc; repeat split; assumption.
Qed.

(** ** The breaking-change policy *)

Lemma filter_of_existsb {A : Type} (f : A -> bool) (l : list A) :
  existsb f l = true -> filter f l <> [].
Proof.
  induction l as [|x l IH]; simpl; [discriminate|].
  destruct (f x); simpl; [discriminate|exact IH].
Qed.

Lemma promoted_pairs (cs : list SchemaChange.t) :
  Forall2
    (fun change error =>
       SchemaError.message error
       = String.append "Breaking Change: " (SchemaChange.message change)
       /\ SchemaError.path error = SchemaChange.path change)
    (filter isBreaking cs) (map breakingChangeError (filter isBreaking cs)).
Proof.
  induction (filter isBreaking cs) as [|c l IH]; simpl; constructor; auto.
Qed.

(** C3. In a non-initial run in which the build of [before] gave a schema and
    the diff returned changes [cs], some of them breaking, the call returns a
    result whose [changes] are [cs].  Without the waiver, the errors are the
    composition errors followed by one error per breaking change, in order,
    each with the prefixed message and the path of its change, and the result
    is invalid.  With the waiver, the errors are the composition errors
    alone, so the result is valid when there are none, and the breaking
    entries are still in [changes]. *)
Theorem breaking_change_policy i w (r : Result ValidationResult) w' log
    (ex : SchemaObject) (cs : list SchemaChange.t) :
  validate imports i w = (r, w', log) ->
  isInitial i = false ->
  beforeBuildOutcome log = Some (Returned (Some ex)) ->
  In (Returned cs) (diffOutcomes log) ->
  existsb isBreaking cs = true ->
  exists res es,
    r = Returned res
    /\ validateOutcomes log = [Returned es]
    /\ changes res = cs
    /\ (experimental_acceptBreakingChanges i = false ->
        exists appended,
          errors res = es ++ appended
          /\ Forall2
               (fun change error =>
                  SchemaError.message error
                  = String.append "Breaking Change: "
                      (SchemaChange.message change)
                  /\ SchemaError.path error = SchemaChange.path change)
               (filter isBreaking cs) appended
          /\ valid res = false)
    /\ (experimental_acceptBreakingChanges i = true ->
        errors res = es
        /\ (es = [] -> valid res = true)
        /\ filter isBreaking (changes res) <> []).
Proof.
  intros H N B D X. paths H; simpl in *; try congruence; try tauto;
    try (destruct D as [D|[]]; discriminate).
  destruct D as [D|[]]; inversion D; subst cs0.
  exists (verdict (es ++ promoted (experimental_acceptBreakingChanges i) cs) cs),
    es.
  unfold promoted; rewrite X.
  split; [reflexivity|]. split; [reflexivity|]. split; [reflexivity|].
  split.
  - intros F; rewrite F.
    exists (map breakingChangeError (filter isBreaking cs)).
    split; [reflexivity|]. split; [apply promoted_pairs|].
    rewrite verdict_valid, length_app, length_map.
    apply filter_of_existsb in X.
    destruct (filter isBreaking cs); [congruence|].
    simpl. rewrite Nat.add_succ_r. reflexivity.
  - intros T; rewrite T. simpl. rewrite app_nil_r.
    split; [reflexivity|]. split.
    + intros E; subst es. reflexivity.
    + apply filter_of_existsb, X.
Qed.

(** ** Failures while comparing *)

Lemma settle_thrown {A : Type} (first : bool) (r1 r2 : Result A) (e : Error.t) :
  settle first r1 r2 = Thrown e -> In e (thrownBy r1 ++ thrownBy r2).
Proof.
  destruct r1, r2, first; simpl; intros H; inversion H; subst; auto.
Qed.



Lemma compareFailure_thrown (e raised : Error.t) :
  compareFailure e = Thrown raised ->
  nullish e = true /\ readMessage e = Thrown raised.
Proof.
  destruct e; unfold compareFailure; simpl; intros H; inversion H; auto.
Qed.

(** What the body of the [try] throws was raised by one of its calls. *)
Lemma Raised_raised i (w1 : World) (e : Error.t) w' log :
  Raised imports i w1 e w' log -> In e (raisedComparing log).
Proof.
  intros R. inversion R; subst; simpl; auto.
  rewrite app_nil_r. eapply settle_thrown; eassumption.
Qed.

(** The body of the [try] does not call [orchestrator.validate]. *)
Lemma Raised_quiet i (w1 : World) (e : Error.t) w' log :
  Raised imports i w1 e w' log -> validateOutcomes log = [].
Proof. intros R. inversion R; subst; reflexivity. Qed.


(** ** The initial-schema exit *)

Lemma length_zero_nil {A : Type} (l : list A) :
  Nat.eqb (length l) 0 = true <-> l = [].
Proof. destruct l; simpl; split; congruence. Qed.

(** C5.  With [isInitial] set, a returned result has no changes and neither
    [orchestrator.build] nor [inspector.diff] was called; the list that
    [orchestrator.validate] answered is the list of errors of the result, and
    the result is valid exactly when that list is empty.  The orchestrator
    is asked, once, whenever [existing] is null or has another hash than
    [incoming]; and the call does return whenever the base-schema injection
    and [orchestrator.validate] do. *)
Theorem initial_schema_exit i w :
  isInitial i = true ->
  (forall res w' log,
     validate imports i w = (Returned res, w', log) ->
     changes res = [] /\ buildCalls log = [] /\ diffCalls log = []
     /\ (forall es, In (Returned es) (validateOutcomes log) ->
         errors res = es /\ (valid res = true <-> es = []))
     /\ (areIdentical imports (existing i) (incoming i) = false ->
         exists es,
           validateOutcomes log = [Returned es]
           /\ errors res = es
           /\ (valid res = true <-> es = []))
     /\ (existing i = None -> exists es, validateOutcomes log = [Returned es]))
  /\ (forall merged es w1,
        afterWithBase imports (baseSchema i) (after i) = Returned merged ->
        areIdentical imports (existing i) (incoming i) = false ->
        orchValidate (orchestrator i) w merged (validateConfig (project i))
          = (Returned es, w1) ->
        validate imports i w
        = (Returned (initialVerdict es), w1,
           [OrchestratorValidate merged (validateConfig (project i))
              (Returned es)])).
Proof.
  intros N. split.
  - intros res w' log H. apply validate_run in H.
    inversion H; subst; simpl; try congruence.
    + repeat split; try contradiction; try congruence.
      intros E. unfold areIdentical in *. rewrite E in *. discriminate.
    + split; [reflexivity|]. split; [reflexivity|]. split; [reflexivity|].
      assert (V : valid (initialVerdict es) = true <-> es = [])
        by apply length_zero_nil.
      split; [|split].
      * intros es0 [E|[]]. inversion E; subst. split; [reflexivity|exact V].
      * intros _. exists es. split; [reflexivity|]. split; [reflexivity|].
        exact V.
      * intros _. exists es. reflexivity.
  - intros merged es w1 A I V.
    destruct (validate imports i w) as [[r w'] log] eqn:H.
    apply validate_run in H. inversion H; subst; congruence.
Qed.

(** ** When there is nothing to diff against *)

(** C8, amended.  In a non-initial run in which the build of [before] gave no
    schema, [inspector.diff] is not called and a result that is returned has
    no changes; when moreover the build of [after] did not raise, a result is
    returned and its errors are exactly the composition errors answered by
    [orchestrator.validate]; a result is returned as well when that build
    raised something other than null and undefined.  In any run, a result
    with changes comes from a non-initial run in which the build of [before]
    gave a schema. *)
Theorem no_before_schema_no_diff i w (r : Result ValidationResult) w' log :
  validate imports i w = (r, w', log) ->
  (isInitial i = false ->
   beforeBuildOutcome log = Some (Returned None) ->
   diffCalls log = []
   /\ exists es,
        validateOutcomes log = [Returned es]
        /\ (forall res, r = Returned res -> changes res = [])
        /\ (forall inc, afterBuildOutcome log = Some (Returned inc) ->
            exists res,
              r = Returned res /\ changes res = [] /\ errors res = es)
        /\ (forall e, afterBuildOutcome log = Some (Thrown e) ->
            nullish e = false ->
            exists res, r = Returned res /\ changes res = []))
  /\ (forall res, r = Returned res -> changes res <> [] ->
      isInitial i = false
      /\ exists ex, beforeBuildOutcome log = Some (Returned (Some ex))).
Proof.
  intros H. split.
  - intros N B.
    paths H; unfold beforeBuildOutcome, afterBuildOutcome in *; simpl in *;
      try congruence;
      (split; [reflexivity|]); eexists; (split; [reflexivity|]);
      (split; [intros res E; inversion E; subst; reflexivity|]);
      inversion B; subst;
      match goal with
      | S : settle _ _ ?b = Thrown _ |- _ =>
          destruct b; simpl in S; inversion S; subst
      | _ => idtac
      end;
      (split; [intros inc' A; try discriminate;
               eexists; repeat split; reflexivity|]);
      intros x A Z; try discriminate; inversion A; subst;
      try (eexists; split; reflexivity).
    all: match goal with
         | E : compareFailure _ = Thrown _ |- _ =>
             apply compareFailure_thrown in E; destruct E as [E _];
             rewrite Z in E; discriminate E
         end.
  - intros res E C. subst r.
    paths H; unfold beforeBuildOutcome; simpl in *; try congruence.
    split; [assumption|]. exists ex. reflexivity.
Qed.

(** ** Further properties of the call *)

(** X1. The call throws in three ways only: out of the base-schema
    injection, before any collaborator is called; out of
    [orchestrator.validate], which is then the only call made; or out of the
    [catch] clause of a non-initial run, when what it caught is null or
    undefined, and then it throws what reading the message of that value
    throws.  An exception raised by a build, by [buildSchema] or by the diff
    that is not null or undefined never reaches the caller. *)
Theorem validate_throws_only i w (e : Error.t) w' log :
  validate imports i w = (Thrown e, w', log) ->
  (afterWithBase imports (baseSchema i) (after i) = Thrown e
   /\ w' = w /\ log = [])
  \/ (exists merged,
        afterWithBase imports (baseSchema i) (after i) = Returned merged
        /\ areIdentical imports (existing i) (incoming i) = false
        /\ orchValidate (orchestrator i) w merged (validateConfig (project i))
           = (Thrown e, w')
        /\ log = [OrchestratorValidate merged (validateConfig (project i))
                    (Thrown e)])
  \/ (exists caught es,
        isInitial i = false
        /\ validateOutcomes log = [Returned es]
        /\ In caught (raisedComparing log)
        /\ nullish caught = true
        /\ readMessage caught = Thrown e).
Proof.
  intros H. apply validate_run in H. inversion H; subst.
  - left. auto.
  - right. left. exists merged. auto.
  - right. right. exists e0, es.
    match goal with
    | E : compareFailure _ = Thrown _ |- _ =>
        apply compareFailure_thrown in E; destruct E as [Z M]
    end.
    split; [assumption|].
    split; [simpl; erewrite Raised_quiet by eassumption; reflexivity|].
    split; [simpl; eapply Raised_raised; eassumption|]. auto.
Qed.

(** X2. A result that comes back without any call on a collaborator is the
    all-clear result of the identity short-circuit, and [existing] is then
    present with the content hash of [incoming]. *)
Theorem verdict_without_calls_is_short_circuit i w (res : ValidationResult) w' :
  validate imports i w = (Returned res, w', []) ->
  res = identicalResult /\ w' = w
  /\ exists e, existing i = Some e
             /\ hashSchema imports e = hashSchema imports (incoming i).
Proof.
  intros H. apply validate_run in H. inversion H; subst.
  split; [reflexivity|]. split; [reflexivity|].
  unfold areIdentical in *. destruct (existing i) as [e|]; [|discriminate].
  exists e. split; [reflexivity|]. apply String.eqb_eq. assumption.
Qed.

Lemma filter_nil_of_existsb {A : Type} (f : A -> bool) (l : list A) :
  existsb f l = false -> filter f l = [].
Proof.
  induction l as [|x l IH]; simpl; [reflexivity|].
  destruct (f x); simpl; [discriminate|exact IH].
Qed.

Lemma promoted_unfolded (accept : bool) (cs : list SchemaChange.t) :
  promoted accept cs
  = if accept then [] else map breakingChangeError (filter isBreaking cs).
Proof.
  unfold promoted. destruct (existsb isBreaking cs) eqn:X; [reflexivity|].
  rewrite (filter_nil_of_existsb _ _ X). destruct accept; reflexivity.
Qed.

Lemma promoted_nil (accept : bool) (cs : list SchemaChange.t) :
  promoted accept cs = [] <-> accept = true \/ existsb isBreaking cs = false.
Proof.
  unfold promoted. destruct (existsb isBreaking cs) eqn:X.
  - destruct accept; split; auto.
    + intros E. apply filter_of_existsb in X.
      destruct (filter isBreaking cs); [congruence|discriminate].
    + intros [E|E]; discriminate.
  - split; auto.
Qed.

(** X3. Once the composability check has answered, the errors of a result
    are its answer followed either by the errors of the breaking changes
    among the returned changes (none under the waiver), or, with no changes
    returned, by the single error of a failed comparison: a result never
    carries both changes and a comparison failure. *)
Theorem errors_follow_changes i w (res : ValidationResult) w' log
    (es : list SchemaError.t) :
  validate imports i w = (Returned res, w', log) ->
  validateOutcomes log = [Returned es] ->
  errors res
  = es ++ (if experimental_acceptBreakingChanges i then []
           else map breakingChangeError (filter isBreaking (changes res)))
  \/ (changes res = []
      /\ exists e failure,
           In e (raisedComparing log)
           /\ compareFailure e = Returned failure
           /\ errors res = es ++ [failure]).
Proof.
  intros H V. apply validate_run in H.
  inversion H; subst; simpl in V; inversion V; subst.
  - left. simpl. destruct (experimental_acceptBreakingChanges i);
      rewrite app_nil_r; reflexivity.
  - match goal with
    | C : Compared _ _ _ _ _ _ _ _ |- _ => inversion C; subst
    end; simpl.
    + right. split; [reflexivity|]. exists e, failure.
      split; [eapply Raised_raised; eassumption|]. auto.
    + left. destruct (experimental_acceptBreakingChanges i);
        rewrite app_nil_r; reflexivity.
    + left. rewrite promoted_unfolded. reflexivity.
Qed.

Lemma valid_verdict_app (es extra : list SchemaError.t)
    (cs : list SchemaChange.t) :
  valid (verdict (es ++ extra) cs) = true <-> es = [] /\ extra = [].
Proof.
  rewrite verdict_valid, length_zero_nil. split.
  - intros E. apply app_eq_nil in E. exact E.
  - intros [E1 E2]; subst. reflexivity.
Qed.

(** X4. Once the composability check has answered, a result is valid exactly
    when that answer is empty, nothing was raised while building and
    diffing, and the returned changes hold no breaking change unless the
    waiver is set. *)
Theorem valid_exactly_when i w (res : ValidationResult) w' log
    (es : list SchemaError.t) :
  validate imports i w = (Returned res, w', log) ->
  validateOutcomes log = [Returned es] ->
  valid res = true
  <-> es = [] /\ raisedComparing log = []
      /\ (experimental_acceptBreakingChanges i = true
          \/ existsb isBreaking (changes res) = false).
Proof.
  intros H V. paths H; simpl in V; inversion V; subst;
    try rewrite valid_verdict_app; try rewrite verdict_valid;
    try rewrite promoted_nil; simpl; try rewrite length_zero_nil;
    try tauto;
    (split; [intros [_ E]; discriminate|]); intros (_ & R & _);
    try discriminate.
  rewrite app_nil_r in R.
  match goal with
  | S : settle _ _ _ = Thrown _ |- _ => apply settle_thrown in S
  end.
  rewrite R in *. contradiction.
Qed.

(** X5. When the diff returns changes none of which is breaking, the call
    returns them as they are, the errors are the answer of the composability
    check alone, and the result is valid exactly when that answer is empty,
    with or without the waiver: dangerous and safe changes never block. *)
Theorem non_breaking_changes_pass i w (r : Result ValidationResult) w' log
    (cs : list SchemaChange.t) :
  validate imports i w = (r, w', log) ->
  In (Returned cs) (diffOutcomes log) ->
  existsb isBreaking cs = false ->
  exists res es,
    r = Returned res
    /\ validateOutcomes log = [Returned es]
    /\ changes res = cs
    /\ errors res = es
    /\ (valid res = true <-> es = []).
Proof.
  intros H D X. paths H; simpl in D; try contradiction;
    try (destruct D as [D|[]]; discriminate).
  destruct D as [D|[]]. inversion D; subst.
  do 2 eexists. split; [reflexivity|]. split; [reflexivity|].
  split; [reflexivity|].
  unfold promoted. rewrite X, app_nil_r.
  split; [reflexivity|]. rewrite verdict_valid. apply length_zero_nil.
Qed.

(** X6. The composability check comes first, and once: a log that is not
    empty starts with the call on [orchestrator.validate], made with the
    merged sequence; no other such call follows, at most one diff does, and
    nothing at all follows when that call throws or the schema is initial. *)
Theorem composability_check_comes_first i w (r : Result ValidationResult)
    w' log :
  validate imports i w = (r, w', log) ->
  log = []
  \/ exists merged answer rest,
       log = OrchestratorValidate merged (validateConfig (project i)) answer
             :: rest
       /\ afterWithBase imports (baseSchema i) (after i) = Returned merged
       /\ validateCalls rest = []
       /\ length (diffCalls rest) <= 1
       /\ ((isInitial i = true \/ exists e, answer = Thrown e) -> rest = []).
Proof.
  intros H. paths H; auto; right; do 3 eexists;
    (split; [reflexivity|]); (split; [eassumption|]);
    (split; [reflexivity|]); (split; [simpl; lia|]);
    try reflexivity; intros [I|[e' E]]; congruence.
Qed.

(** X7. Only the schema built from [before] is tested for being there.  When
    the build of [before] gives a schema and the build of [after] gives
    none, [buildSchema] is still called, on the one that is there and, if
    that returns, on the missing one; if it throws on the missing one, the
    diff is not called and the throw goes to the [catch] clause: the result
    carries the composition errors, then the comparison failure made from
    what was thrown, and no changes; or, when reading the message of what
    was thrown throws, the call throws that. *)
Theorem missing_incoming_schema_is_not_guarded i w
    (r : Result ValidationResult) w' log (ex : SchemaObject) :
  validate imports i w = (r, w', log) ->
  beforeBuildOutcome log = Some (Returned (Some ex)) ->
  afterBuildOutcome log = Some (Returned None) ->
  In (BuildSchema (Some ex) (buildSchema imports (Some ex))) log
  /\ (forall a, buildSchema imports (Some ex) = Returned a ->
      In (BuildSchema None (buildSchema imports None)) log)
  /\ (forall a e,
        buildSchema imports (Some ex) = Returned a ->
        buildSchema imports None = Thrown e ->
        diffCalls log = []
        /\ match compareFailure e with
           | Returned failure =>
               exists res es,
                 r = Returned res
                 /\ validateOutcomes log = [Returned es]
                 /\ errors res = es ++ [failure]
                 /\ changes res = []
           | Thrown raised => r = Thrown raised
           end).
Proof.
  intros H B A.
  paths H; unfold beforeBuildOutcome, afterBuildOutcome in *; simpl in *;
    try discriminate; inversion B; inversion A; subst;
    try match goal with
        | S : settle _ _ _ = Thrown _ |- _ => simpl in S; discriminate S
        end;
    repeat match goal with
           | E : buildSchema _ _ = _ |- _ => rewrite E in *
           end;
    (split; [simpl; auto 8|]);
    (split; [intros a' Ea; try congruence; simpl; auto 8|]);
    intros a' e' Ea Ee; try congruence;
    inversion Ee; subst; (split; [reflexivity|]);
    match goal with
    | E : compareFailure _ = _ |- _ => rewrite E
    end; try reflexivity;
    do 2 eexists; repeat split; reflexivity.
Qed.

(** ** Further properties of the injection *)

Lemma truthy_some (base : option string) :
  truthy base = true -> exists b, base = Some b /\ b <> EmptyString.
Proof.
  destruct base as [b|]; simpl; [|discriminate].
  intros T. exists b. split; [reflexivity|].
  apply String.eqb_neq. destruct (String.eqb b EmptyString);
    [discriminate|reflexivity].
Qed.

(** X8. Whatever the base schema is, a merged sequence that comes back has
    the length of [after], the same elements past the first, and in every
    element the fields other than [raw] and [document] untouched; the text of
    its first element is the text of the base schema, or nothing for a null
    one, followed by the original text. *)
Theorem injection_keeps_the_rest (base : option string)
    (l merged : list SchemaObject) :
  afterWithBase imports base l = Returned merged ->
  length merged = length l
  /\ map meta merged = map meta l
  /\ tl merged = tl l
  /\ (forall m0 a0, hd_error merged = Some m0 -> hd_error l = Some a0 ->
      raw m0 = String.append (orEmpty base) (raw a0)).
Proof.
  destruct (truthy base) eqn:T.
  - destruct (truthy_some base T) as (b & E & N). subst base.
    destruct l as [|a0 rest].
    + unfold afterWithBase. rewrite T. simpl.
      intros H; inversion H; subst. repeat split. intros m0 a0 D; discriminate.
    + rewrite afterWithBase_cons by assumption.
      destruct (parse imports b) as [d|e]; [|discriminate].
      intros H; inversion H; subst. repeat split.
      intros m0 a1 M A. simpl in M, A. inversion M; inversion A; subst.
      unfold orEmpty. rewrite T. reflexivity.
  - rewrite afterWithBase_falsy by assumption.
    intros H; inversion H; subst. repeat split.
    intros m0 a0 M A. rewrite M in A. inversion A; subst.
    unfold orEmpty. rewrite T. reflexivity.
Qed.


(** ** The waiver *)

Lemma promoted_waived (cs : list SchemaChange.t) : promoted true cs = [].
Proof. unfold promoted. destruct (existsb isBreaking cs); reflexivity. Qed.

(** Unifies the answers that two runs got from the same call. *)
Ltac same_answers :=
  repeat match goal with
         | H1 : ?call = _, H2 : ?call = _ |- _ =>
             rewrite H1 in H2; inversion H2; subst; clear H2
         end.

(** X10. Two calls that differ in the waiver alone, made in the same world,
    call the collaborators alike and leave the same world; both throw the
    same error or both return; the two results have the same changes, the
    errors of the waived one open the errors of the other one, and the
    waived one is valid whenever the other one is. *)
Theorem waiver_touches_errors_only
    (o : @Orchestrator Document SchemaMeta CompositionConfig World)
    (t : TargetSelector) (inc : SchemaObject) (ex : option SchemaObject)
    (initial : bool) (bef aft : list SchemaObject) (base : option string)
    (p : @Project CompositionConfig) w :
  let run accept :=
    validate imports
      {| orchestrator := o; selector := t; incoming := inc; existing := ex;
         isInitial := initial; before := bef; after := aft;
         baseSchema := base; experimental_acceptBreakingChanges := accept;
         project := p |} w in
  snd (run true) = snd (run false)
  /\ snd (fst (run true)) = snd (fst (run false))
  /\ match fst (fst (run true)), fst (fst (run false)) with
     | Returned waived, Returned strict =>
         changes waived = changes strict
         /\ (exists more, errors strict = errors waived ++ more)
         /\ (valid strict = true -> valid waived = true)
     | Thrown e1, Thrown e2 => e1 = e2
     | _, _ => False
     end.
Proof.
  intros run. subst run. cbv beta.
  destruct (validate imports _ w) as [[r1 w1] l1] eqn:H1.
  destruct (validate imports {| experimental_acceptBreakingChanges := false |} w)
    as [[r2 w2] l2] eqn:H2.
  apply validate_run in H1, H2.
  inversion H1; subst; inversion H2; subst; simpl in *; same_answers;
    try congruence; try (repeat split; try reflexivity; exists []; reflexivity);
    repeat match goal with
           | C : Compared _ _ _ _ _ _ _ _ |- _ => inversion C; subst; clear C
           end;
    repeat match goal with
           | R : Raised _ _ _ _ _ _ |- _ => inversion R; subst; clear R
           end;
    simpl in *; same_answers; try discriminate; try congruence;
    try (repeat split; auto; exists []; symmetry; apply app_nil_r).
  rewrite promoted_waived, app_nil_r.
  repeat split; auto.
  - eexists. reflexivity.
  - destruct es0; simpl; auto.
Qed.



(** ** How much can go wrong while comparing *)

(** X11. At most two exceptions are raised while building and diffing, and
    two only when both builds reject, after which nothing else is called.
    When a single one is raised, it is the one the [catch] clause gets: the
    result carries the composition errors and then the comparison failure
    made from it, or, when reading its message throws, the call throws
    that. *)
Theorem comparison_fails_fast i w (r : Result ValidationResult) w' log :
  validate imports i w = (r, w', log) ->
  length (raisedComparing log) <= 2
  /\ (forall e, raisedComparing log = [e] ->
      match compareFailure e with
      | Returned failure =>
          exists res es,
            r = Returned res
            /\ validateOutcomes log = [Returned es]
            /\ errors res = es ++ [failure]
      | Thrown raised => r = Thrown raised
      end)
  /\ (forall e1 e2, raisedComparing log = [e1; e2] ->
      beforeBuildOutcome log = Some (Thrown e1)
      /\ afterBuildOutcome log = Some (Thrown e2)
      /\ length log = 3).
Proof.
  intros H. paths H; simpl;
    try match goal with
        | S : settle ?first ?a ?b = Thrown _ |- _ =>
            destruct a, b; simpl in S |- *;
            try destruct first; inversion S; subst
        end;
    (split; [lia|]); (split; [intros x R|intros x1 x2 R]);
    try discriminate; inversion R; subst;
    try (repeat split; reflexivity);
    match goal with
    | E : compareFailure _ = _ |- _ => rewrite E
    end; try reflexivity;
    do 2 eexists; repeat split; reflexivity.
Qed.

End Properties.

(** * The properties on the scripted deployment *)

Section Scripted.

Import Example.

(** An update with a breaking change, not waived: the verdict is consistent. *)
Lemma validate_verdict_consistent_witness :
  validate (env (Returned found)) (update healthy None false) 0
  = (Returned rejected, 4, comparison [usersV2; orders])
  /\ (valid rejected = Nat.eqb (length (errors rejected)) 0
      /\ isComposable rejected = valid rejected).
Proof.
  split; [reflexivity|].
  apply (validate_verdict_consistent (env (Returned found))
           (update healthy None false) 0 rejected 4
           (comparison [usersV2; orders])).
  reflexivity.
Defined.

(** The base schema [type Query] in front of a two-service update. *)
Lemma base_injection_witness :
  "type Query" <> EmptyString
  /\ parse (env (Returned [])) "type Query" = Returned ["type Query"]
  /\ nth_error [usersV2; orders] 0 = Some usersV2
  /\ (exists merged,
        afterWithBase (env (Returned [])) (Some "type Query")
          [usersV2; orders] = Returned merged
        /\ length merged = length [usersV2; orders]
        /\ nth_error merged 0
           = Some {| raw := String.append "type Query" (raw usersV2);
                     document :=
                       concatAST (env (Returned []))
                         [["type Query"]; document usersV2];
                     meta := meta usersV2 |}
        /\ forall k, 0 < k ->
             nth_error merged k = nth_error [usersV2; orders] k)
  /\ afterWithBase (env (Returned [])) None [usersV2; orders]
     = Returned [usersV2; orders]
  /\ afterWithBase (env (Returned [])) (Some EmptyString) [usersV2; orders]
     = Returned [usersV2; orders].
Proof.
  assert (N : "type Query" <> EmptyString) by discriminate.
  split; [exact N|]. split; [reflexivity|]. split; [reflexivity|].
  destruct (base_injection (env (Returned [])) [usersV2; orders])
    as (Truthy & Null & Empty).
  split; [|split; [exact Null|exact Empty]].
  exact (Truthy "type Query" ["type Query"] usersV2 N eq_refl eq_refl).
Defined.

(** C6 as stated fails on the empty base schema: it is not null, yet the
    sequence is [after] itself, element 0 keeps its own document, and there is
    no parsed base to merge, since the parser rejects the empty source. *)
Lemma base_injection_counterexample :
  Some EmptyString <> None
  /\ afterWithBase (env (Returned [])) (Some EmptyString) [usersV2; orders]
     = Returned [usersV2; orders]
  /\ parse (env (Returned [])) EmptyString = Thrown endOfInput
  /\ ~ (exists d,
          parse (env (Returned [])) EmptyString = Returned d
          /\ document usersV2
             = concatAST (env (Returned [])) [d; document usersV2]).
Proof.
  split; [discriminate|]. split; [reflexivity|]. split; [reflexivity|].
  intros [d [P _]]. discriminate P.
Qed.

(** The users schema pushed again, with a base schema that parses. *)
Lemma identical_short_circuit_witness :
  existing (republish healthy (Some "type Query") false) = Some users
  /\ hashSchema (env (Returned [])) users
     = hashSchema (env (Returned []))
         (incoming (republish healthy (Some "type Query") false))
  /\ afterWithBase (env (Returned [])) (Some "type Query") [users]
     = Returned [{| raw := "type Querytype User";
                    document := ["type Query"; "type User"];
                    meta := "users" |}]
  /\ validate (env (Returned [])) (republish healthy (Some "type Query") false)
       0
     = (Returned identicalResult, 0, []).
Proof.
  split; [reflexivity|]. split; [reflexivity|]. split; [reflexivity|].
  apply (identical_short_circuit (env (Returned []))
           (republish healthy (Some "type Query") false) 0 users
           [{| raw := "type Querytype User";
               document := ["type Query"; "type User"];
               meta := "users" |}]); reflexivity.
Defined.

(** C2 as stated fails when the base schema does not parse: [existing] has
    the hash of [incoming], and yet the call throws. *)
Lemma identical_short_circuit_counterexample :
  existing (republish healthy (Some "typo Query") false) = Some users
  /\ hashSchema (env (Returned [])) users
     = hashSchema (env (Returned []))
         (incoming (republish healthy (Some "typo Query") false))
  /\ validate (env (Returned [])) (republish healthy (Some "typo Query") false)
       0
     = (Thrown unparsed, 0, [])
  /\ validate (env (Returned [])) (republish healthy (Some "typo Query") false)
       0
     <> (Returned identicalResult, 0, []).
Proof.
  split; [reflexivity|]. split; [reflexivity|]. split; [reflexivity|].
  discriminate.
Qed.

(** A base schema that does not parse: the call throws although [existing]
    has the hash of [incoming]. *)
Lemma unparseable_base_faults_witness :
  baseSchema (republish healthy (Some "typo Query") false)
  = Some "typo Query"
  /\ "typo Query" <> EmptyString
  /\ after (republish healthy (Some "typo Query") false) <> []
  /\ parse (env (Returned [])) "typo Query" = Thrown unparsed
  /\ validate (env (Returned [])) (republish healthy (Some "typo Query") false)
       0
     = (Thrown unparsed, 0, []).
Proof.
  assert (N : "typo Query" <> EmptyString) by discriminate.
  assert (A : after (republish healthy (Some "typo Query") false) <> [])
    by discriminate.
  split; [reflexivity|]. split; [exact N|]. split; [exact A|].
  split; [reflexivity|].
  apply (unparseable_base_faults (env (Returned []))
           (republish healthy (Some "typo Query") false) 0 "typo Query"
           unparsed eq_refl N A eq_refl).
Defined.

(** C10 as stated fails on the empty base schema: it is not null, [after] has
    an element and the parser rejects the empty source, but the call returns
    the all-clear result of the identity short-circuit. *)
Lemma unparseable_base_faults_counterexample :
  baseSchema (republish healthy (Some EmptyString) false) = Some EmptyString
  /\ after (republish healthy (Some EmptyString) false) <> []
  /\ parse (env (Returned [])) EmptyString = Thrown endOfInput
  /\ validate (env (Returned [])) (republish healthy (Some EmptyString) false)
       0
     = (Returned identicalResult, 0, []).
Proof.
  split; [reflexivity|]. split; [discriminate|]. split; reflexivity.
Qed.

(** The strict update: both builds get the configuration although external
    composition is disabled, and [orchestrator.validate] gets null. *)
Lemma build_receives_configuration_witness :
  validate deployment strict 0
  = (Returned rejected, 4, comparison [usersV2; orders])
  /\ ((buildCalls (comparison [usersV2; orders]) <> [] ->
       buildCalls (comparison [usersV2; orders])
       = [(before strict, externalComposition (project strict));
          (after strict, externalComposition (project strict))])
      /\ (forall l c, In (l, c) (validateCalls (comparison [usersV2; orders])) ->
          (enabled (externalComposition (project strict)) = false -> c = None)
          /\ (enabled (externalComposition (project strict)) = true ->
              c = Some (externalComposition (project strict))))).
Proof.
  split; [reflexivity|].
  apply (build_receives_configuration deployment strict 0
           (Returned rejected) 4 (comparison [usersV2; orders])).
  reflexivity.
Defined.

(** The lenient update with a base schema: what each collaborator gets. *)
Lemma base_reaches_validate_only_witness :
  validate deployment lenient 0
  = (Returned waived, 4, comparison [based; orders])
  /\ ((forall l c, In (l, c) (validateCalls (comparison [based; orders])) ->
        afterWithBase deployment (baseSchema lenient) (after lenient)
        = Returned l)
      /\ (buildCalls (comparison [based; orders]) = [] \/
          map fst (buildCalls (comparison [based; orders]))
          = [before lenient; after lenient])
      /\ (forall a b t, In (a, b, t) (diffCalls (comparison [based; orders])) ->
          exists ex inc,
            beforeBuildOutcome (comparison [based; orders])
            = Some (Returned (Some ex))
            /\ afterBuildOutcome (comparison [based; orders])
               = Some (Returned inc)
            /\ buildSchema deployment (Some ex) = Returned a
            /\ buildSchema deployment inc = Returned b
            /\ t = selector lenient)).
Proof.
  split; [reflexivity|].
  apply (base_reaches_validate_only deployment lenient 0
           (Returned waived) 4 (comparison [based; orders])).
  reflexivity.
Defined.

(** C7 as stated fails on the lenient update: [orchestrator.validate] gets
    the merged sequence, but the second build, the one of the post-change
    schema, gets [after] without the base schema. *)
Lemma base_reaches_validate_only_counterexample :
  baseSchema lenient = Some "type Query"
  /\ afterWithBase deployment (baseSchema lenient) (after lenient)
     = Returned [based; orders]
  /\ validate deployment lenient 0
     = (Returned waived, 4, comparison [based; orders])
  /\ validateCalls (comparison [based; orders])
     = [([based; orders], None)]
  /\ nth_error (buildCalls (comparison [based; orders])) 1
     = Some ([usersV2; orders], externalComposition (project lenient))
  /\ [usersV2; orders] <> [based; orders].
Proof.
  repeat (split; [reflexivity|]). discriminate.
Qed.

(** The strict update: the breaking removal is turned into an error. *)
Lemma breaking_change_policy_witness :
  validate deployment strict 0
  = (Returned rejected, 4, comparison [usersV2; orders])
  /\ isInitial strict = false
  /\ beforeBuildOutcome (comparison [usersV2; orders])
     = Some (Returned (Some (composed [users; orders])))
  /\ In (Returned found) (diffOutcomes (comparison [usersV2; orders]))
  /\ existsb isBreaking found = true
  /\ (exists res es,
        Returned rejected = Returned res
        /\ validateOutcomes (comparison [usersV2; orders]) = [Returned es]
        /\ changes res = found
        /\ (experimental_acceptBreakingChanges strict = false ->
            exists appended,
              errors res = es ++ appended
              /\ Forall2
                   (fun change error =>
                      SchemaError.message error
                      = String.append "Breaking Change: "
                          (SchemaChange.message change)
                      /\ SchemaError.path error = SchemaChange.path change)
                   (filter isBreaking found) appended
              /\ valid res = false)
        /\ (experimental_acceptBreakingChanges strict = true ->
            errors res = es
            /\ (es = [] -> valid res = true)
            /\ filter isBreaking (changes res) <> [])).
Proof.
  assert (D : In (Returned found) (diffOutcomes (comparison [usersV2; orders])))
    by (left; reflexivity).
  split; [reflexivity|]. split; [reflexivity|]. split; [reflexivity|].
  split; [exact D|]. split; [reflexivity|].
  apply (breaking_change_policy deployment strict 0 (Returned rejected) 4
           (comparison [usersV2; orders]) (composed [users; orders]) found
           eq_refl eq_refl eq_refl D eq_refl).
Defined.



(** The first schema of a target, with a conflict: invalid, nothing diffed. *)
Lemma initial_schema_exit_witness :
  isInitial firstConflicting = true
  /\ existing firstConflicting = None
  /\ validate deployment firstConflicting 0
     = (Returned (initialVerdict [conflict]), 1, inauguralLog)
  /\ changes (initialVerdict [conflict]) = []
  /\ buildCalls inauguralLog = []
  /\ diffCalls inauguralLog = []
  /\ (forall es,
        In (Returned es) (validateOutcomes inauguralLog) ->
        errors (initialVerdict [conflict]) = es
        /\ (valid (initialVerdict [conflict]) = true <-> es = [])).
Proof.
  split; [reflexivity|]. split; [reflexivity|].
  destruct (initial_schema_exit deployment firstConflicting 0 eq_refl)
    as [Returns Runs].
  assert (V : validate deployment firstConflicting 0
              = (Returned (initialVerdict [conflict]), 1, inauguralLog))
    by (apply (Runs [users] [conflict] 1); reflexivity).
  split; [exact V|].
  destruct (Returns _ _ _ V) as (C & B & D & Answer & _).
  split; [exact C|]. split; [exact B|]. split; [exact D|]. exact Answer.
Defined.

(** The orphan update: nothing to diff against, the conflict alone remains. *)
Lemma no_before_schema_no_diff_witness :
  validate deployment orphan 0
  = (Returned (failed [conflict]), 3,
     opening [usersV2; orders] (Returned [conflict]) (Returned None)
       (built [usersV2; orders]))
  /\ isInitial orphan = false
  /\ beforeBuildOutcome
       (opening [usersV2; orders] (Returned [conflict]) (Returned None)
          (built [usersV2; orders]))
     = Some (Returned None)
  /\ diffCalls
       (opening [usersV2; orders] (Returned [conflict]) (Returned None)
          (built [usersV2; orders])) = []
  /\ exists es,
       validateOutcomes
         (opening [usersV2; orders] (Returned [conflict]) (Returned None)
            (built [usersV2; orders]))
       = [Returned es]
       /\ (forall res, Returned (failed [conflict]) = Returned res ->
           changes res = [])
       /\ (forall inc,
             afterBuildOutcome
               (opening [usersV2; orders] (Returned [conflict])
                  (Returned None) (built [usersV2; orders]))
             = Some (Returned inc) ->
             exists res,
               Returned (failed [conflict]) = Returned res
               /\ changes res = [] /\ errors res = es)
       /\ (forall e,
             afterBuildOutcome
               (opening [usersV2; orders] (Returned [conflict])
                  (Returned None) (built [usersV2; orders]))
             = Some (Thrown e) ->
             nullish e = false ->
             exists res,
               Returned (failed [conflict]) = Returned res
               /\ changes res = []).
Proof.
  split; [reflexivity|]. split; [reflexivity|]. split; [reflexivity|].
  apply (proj1 (no_before_schema_no_diff deployment orphan 0
                  (Returned (failed [conflict])) 3
                  (opening [usersV2; orders] (Returned [conflict])
                     (Returned None) (built [usersV2; orders]))
                  eq_refl) eq_refl eq_refl).
Defined.

(** C8 as stated fails when the build of [before] gives nothing and the build
    of [after] times out: the errors are the composition errors and the
    comparison failure. *)
Lemma no_before_schema_no_diff_counterexample :
  isInitial orphanFlaky = false
  /\ validate deployment orphanFlaky 0
     = (Returned (failed [conflict; timedOut]), 3,
        opening [usersV2; orders] (Returned [conflict]) (Returned None)
          (Thrown timeout))
  /\ beforeBuildOutcome
       (opening [usersV2; orders] (Returned [conflict]) (Returned None)
          (Thrown timeout))
     = Some (Returned None)
  /\ validateOutcomes
       (opening [usersV2; orders] (Returned [conflict]) (Returned None)
          (Thrown timeout))
     = [Returned [conflict]]
  /\ errors (failed [conflict; timedOut]) <> [conflict].
Proof.
  repeat (split; [reflexivity|]). discriminate.
Qed.

(** ** Further properties on the scripted deployment *)

(** The composability check times out: the call throws, after that one call. *)
Lemma validate_throws_only_witness :
  validate deployment unreachable 0
  = (Thrown timeout, 1,
     unreachableLog)
  /\ ((afterWithBase deployment (baseSchema unreachable) (after unreachable)
       = Thrown timeout
       /\ 1 = 0
       /\ unreachableLog = [])
      \/ (exists merged,
            afterWithBase deployment (baseSchema unreachable)
              (after unreachable) = Returned merged
            /\ areIdentical deployment (existing unreachable)
                 (incoming unreachable) = false
            /\ orchValidate (orchestrator unreachable) 0 merged
                 (validateConfig (project unreachable))
               = (Thrown timeout, 1)
            /\ unreachableLog
               = [OrchestratorValidate merged
                    (validateConfig (project unreachable))
                    (Thrown timeout)])
      \/ (exists caught es,
            isInitial unreachable = false
            /\ validateOutcomes unreachableLog = [Returned es]
            /\ In caught (raisedComparing unreachableLog)
            /\ nullish caught = true
            /\ readMessage caught = Thrown timeout)).
Proof.
  split; [reflexivity|].
  apply (validate_throws_only deployment unreachable 0
           timeout 1 unreachableLog).
  reflexivity.
Defined.

(** The users schema pushed again: no call, so the short-circuit it was. *)
Lemma verdict_without_calls_is_short_circuit_witness :
  validate deployment (republish healthy None false) 0
  = (Returned identicalResult, 0, [])
  /\ (identicalResult = identicalResult /\ 0 = 0
      /\ exists e,
           existing (republish healthy None false) = Some e
           /\ hashSchema deployment e
              = hashSchema deployment (incoming (republish healthy None false))).
Proof.
  split; [reflexivity|].
  apply (verdict_without_calls_is_short_circuit deployment
           (republish healthy None false) 0 identicalResult 0).
  reflexivity.
Defined.

(** The strict update: its one error is the one of the breaking removal. *)
Lemma errors_follow_changes_witness :
  validate deployment strict 0
  = (Returned rejected, 4, comparison [usersV2; orders])
  /\ validateOutcomes (comparison [usersV2; orders]) = [Returned []]
  /\ (errors rejected
      = [] ++ (if experimental_acceptBreakingChanges strict then []
               else map breakingChangeError
                      (filter isBreaking (changes rejected)))
      \/ (changes rejected = []
          /\ exists e,
               exists failure,
                 In e (raisedComparing (comparison [usersV2; orders]))
                 /\ compareFailure e = Returned failure
                 /\ errors rejected = [] ++ [failure])).
Proof.
  split; [reflexivity|]. split; [reflexivity|].
  apply (errors_follow_changes deployment strict 0 rejected 4
           (comparison [usersV2; orders]) []); reflexivity.
Defined.

(** The lenient update: valid, the breaking removal being waived. *)
Lemma valid_exactly_when_witness :
  validate deployment lenient 0
  = (Returned waived, 4, comparison [based; orders])
  /\ validateOutcomes (comparison [based; orders]) = [Returned []]
  /\ (valid waived = true
      <-> @nil SchemaError.t = []
          /\ raisedComparing (comparison [based; orders]) = []
          /\ (experimental_acceptBreakingChanges lenient = true
              \/ existsb isBreaking (changes waived) = false)).
Proof.
  split; [reflexivity|]. split; [reflexivity|].
  apply (valid_exactly_when deployment lenient 0 waived 4
           (comparison [based; orders]) []); reflexivity.
Defined.

(** A deprecation and an addition do not block the strict update. *)
Lemma non_breaking_changes_pass_witness :
  validate calm strict 0
  = (Returned {| valid := true; isComposable := true; errors := [];
                 changes := [deprecation; addition] |}, 4, calmLog)
  /\ In (Returned [deprecation; addition]) (diffOutcomes calmLog)
  /\ existsb isBreaking [deprecation; addition] = false
  /\ exists res es,
       Returned {| valid := true; isComposable := true; errors := [];
                   changes := [deprecation; addition] |} = Returned res
       /\ validateOutcomes calmLog = [Returned es]
       /\ changes res = [deprecation; addition]
       /\ errors res = es
       /\ (valid res = true <-> es = []).
Proof.
  assert (D : In (Returned [deprecation; addition]) (diffOutcomes calmLog))
    by (left; reflexivity).
  split; [reflexivity|]. split; [exact D|]. split; [reflexivity|].
  apply (non_breaking_changes_pass calm strict 0 _ 4 calmLog
           [deprecation; addition] eq_refl D eq_refl).
Defined.

(** The orphan update: the composability check opens the log. *)
Lemma composability_check_comes_first_witness :
  validate deployment orphan 0
  = (Returned (failed [conflict]), 3,
     opening [usersV2; orders] (Returned [conflict]) (Returned None)
       (built [usersV2; orders]))
  /\ (opening [usersV2; orders] (Returned [conflict]) (Returned None)
        (built [usersV2; orders]) = []
      \/ exists merged answer rest,
           opening [usersV2; orders] (Returned [conflict]) (Returned None)
             (built [usersV2; orders])
           = OrchestratorValidate merged (validateConfig (project orphan))
               answer :: rest
           /\ afterWithBase deployment (baseSchema orphan) (after orphan)
              = Returned merged
           /\ validateCalls rest = []
           /\ length (diffCalls rest) <= 1
           /\ ((isInitial orphan = true \/ exists e, answer = Thrown e) ->
               rest = [])).
Proof.
  split; [reflexivity|].
  apply (composability_check_comes_first deployment orphan 0
           (Returned (failed [conflict])) 3
           (opening [usersV2; orders] (Returned [conflict]) (Returned None)
              (built [usersV2; orders]))).
  reflexivity.
Defined.

(** Nothing built for [after]: [buildSchema] is called on null and throws. *)
Lemma missing_incoming_schema_is_not_guarded_witness :
  validate deployment halfBuilt 0
  = (Returned (failed [missed]), 3, halfBuiltLog)
  /\ beforeBuildOutcome halfBuiltLog
     = Some (Returned (Some (composed [users; orders])))
  /\ afterBuildOutcome halfBuiltLog = Some (Returned None)
  /\ In (BuildSchema None (buildSchema deployment None)) halfBuiltLog
  /\ diffCalls halfBuiltLog = []
  /\ exists res es,
       Returned (failed [missed]) = Returned res
       /\ validateOutcomes halfBuiltLog = [Returned es]
       /\ errors res = es ++ [missed]
       /\ changes res = [].
Proof.
  split; [reflexivity|]. split; [reflexivity|]. split; [reflexivity|].
  destruct (missing_incoming_schema_is_not_guarded deployment halfBuilt 0
              (Returned (failed [missed])) 3
              halfBuiltLog (composed [users; orders])
              eq_refl eq_refl eq_refl) as (_ & Called & Caught).
  split; [exact (Called ["type User"; "type Order"] eq_refl)|].
  exact (Caught ["type User"; "type Order"] missingSchema eq_refl eq_refl).
Defined.

(** The base schema [type Query] in front of the update: only the text and
    the document of the first element change. *)
Lemma injection_keeps_the_rest_witness :
  afterWithBase deployment (Some "type Query") [usersV2; orders]
  = Returned [based; orders]
  /\ (length [based; orders] = length [usersV2; orders]
      /\ map meta [based; orders] = map meta [usersV2; orders]
      /\ tl [based; orders] = tl [usersV2; orders]
      /\ (forall m0 a0,
            hd_error [based; orders] = Some m0 ->
            hd_error [usersV2; orders] = Some a0 ->
            raw m0 = String.append (orEmpty (Some "type Query")) (raw a0))).
Proof.
  split; [reflexivity|].
  apply (injection_keeps_the_rest deployment (Some "type Query")
           [usersV2; orders] [based; orders]).
  reflexivity.
Defined.


(** The flaky update: one exception, and the failure carries its message. *)
Lemma comparison_fails_fast_witness :
  validate deployment flaky 0
  = (Returned (failed [conflict; timedOut]), 3,
     opening [usersV2; orders] (Returned [conflict]) (built [users; orders])
       (Thrown timeout))
  /\ raisedComparing
       (opening [usersV2; orders] (Returned [conflict])
          (built [users; orders]) (Thrown timeout)) = [timeout]
  /\ exists res es,
       Returned (failed [conflict; timedOut]) = Returned res
       /\ validateOutcomes
            (opening [usersV2; orders] (Returned [conflict])
               (built [users; orders]) (Thrown timeout))
          = [Returned es]
       /\ errors res = es ++ [timedOut].
Proof.
  split; [reflexivity|]. split; [reflexivity|].
  apply (proj1 (proj2 (comparison_fails_fast deployment flaky 0
                         (Returned (failed [conflict; timedOut]))
                         3
                         (opening [usersV2; orders] (Returned [conflict])
                            (built [users; orders]) (Thrown timeout))
                         eq_refl))
           timeout eq_refl).
Defined.

End Scripted.
